(** * MarkGrow contact-form backend (backend-example.js)

    A shallow embedding of the Express handlers of [backend-example.js]:
    the [POST /api/submit-form] handler, the [GET /health] handler, the
    regular expression the form handler validates addresses with, and the
    two mail messages it builds.

    JavaScript strings are sequences of UTF-16 code units; request fields
    are JavaScript values; the mail transport, the console and the clock
    are an explicit world threaded through a state-and-exception monad. *)

From Stdlib Require Import List NArith ZArith Bool Arith Lia String Ascii.
Import ListNotations.

(** ** JavaScript strings and values *)

(** A UTF-16 code unit. *)
Definition char16 := N.

Definition jsstring := list char16.

(** A source-level string literal as a JavaScript string. *)
Definition js (s : string) : jsstring :=
  map N_of_ascii (list_ascii_of_string s).

(** The values a field of the parsed body or an environment entry takes
    here.  A property that is absent reads as [undefined].  The
    submission fields are strings; of the other JSON values [null] and
    the booleans are kept, numbers, arrays and nested objects are left
    out. *)
Inductive jsval :=
| JUndefined
| JNull
| JBool (b : bool)
| JStr (s : jsstring).

(** ToBoolean. *)
Definition truthy (v : jsval) : bool :=
  match v with
  | JUndefined => false
  | JNull => false
  | JBool b => b
  | JStr [] => false
  | JStr (_ :: _) => true
  end.

(** ToString, as applied by template literals and by [RegExp.prototype.test]. *)
Definition ToString (v : jsval) : jsstring :=
  match v with
  | JUndefined => js "undefined"
  | JNull => js "null"
  | JBool true => js "true"
  | JBool false => js "false"
  | JStr s => s
  end.

(** [a || b] *)
Definition js_or (a b : jsval) : jsval := if truthy a then a else b.

(** ** Regular expressions *)

Module RegExp.

(** Members of a character class. *)
Inductive class_atom :=
| ClassChar (c : char16)     (* a literal character *)
| ClassSpace.                (* \s *)

(** The pattern syntax that [emailRegex] uses. *)
Inductive pattern :=
| Bol                                  (* ^ *)
| Eol                                  (* $ *)
| Char (c : char16)                    (* a literal or escaped character *)
| NotClass (atoms : list class_atom)   (* [^...] *)
| Seq (p q : pattern)
| Plus (p : pattern).                  (* greedy p+ *)

(** WhiteSpace and LineTerminator code points: what [\s] matches. *)
Definition is_space (c : char16) : bool :=
  ((9 <=? c) && (c <=? 13)
   || (c =? 32) || (c =? 160) || (c =? 5760)
   || ((8192 <=? c) && (c <=? 8202))
   || (c =? 8232) || (c =? 8233) || (c =? 8239) || (c =? 8287)
   || (c =? 12288) || (c =? 65279))%N.

Definition atom_matches (a : class_atom) (c : char16) : bool :=
  match a with
  | ClassChar d => (c =? d)%N
  | ClassSpace => is_space c
  end.

Definition class_matches (atoms : list class_atom) (c : char16) : bool :=
  existsb (fun a => atom_matches a c) atoms.

(** A continuation receives the index reached and the input left. *)
Definition cont := nat -> jsstring -> bool.

(** Backtracking matcher in continuation-passing style.  [i] is the
    index of the current position, [s] the input from there on.  A
    greedy [p+] matches [p] once and then, as often as it can, once
    more (an iteration that consumes nothing is rejected) before it
    falls back to the continuation; [fuel] bounds the iterations. *)
Fixpoint matcher (fuel : nat) (p : pattern) (i : nat) (s : jsstring) (k : cont)
  {struct p} : bool :=
  match p with
  | Bol => if Nat.eqb i 0 then k i s else false
  | Eol => match s with [] => k i s | _ :: _ => false end
  | Char c =>
      match s with
      | d :: s' => if (d =? c)%N then k (S i) s' else false
      | [] => false
      end
  | NotClass atoms =>
      match s with
      | d :: s' => if class_matches atoms d then false else k (S i) s'
      | [] => false
      end
  | Seq p1 p2 =>
      matcher fuel p1 i s (fun i' s' => matcher fuel p2 i' s' k)
  | Plus p1 =>
      matcher fuel p1 i s
        ((fix more (n : nat) (i : nat) (s : jsstring) {struct n} : bool :=
            match n with
            | O => false
            | S n' =>
                matcher fuel p1 i s
                  (fun i' s' => if Nat.ltb i i' then more n' i' s' else false)
                || k i s
            end) fuel)
  end.

(** Try a match at every start index, leftmost first. *)
Fixpoint search (fuel : nat) (p : pattern) (i : nat) (s : jsstring) : bool :=
  matcher fuel p i s (fun _ _ => true)
  || match s with
     | [] => false
     | _ :: s' => search fuel p (S i) s'
     end.

(** [re.test(str)] for a pattern without flags. *)
Definition test (p : pattern) (s : jsstring) : bool :=
  search (S (List.length s)) p 0 s.

End RegExp.

Import RegExp.

Definition c_at : char16 := 64%N.
Definition c_dot : char16 := 46%N.

(** [[^\s@]] *)
Definition not_space_at : pattern := NotClass [ClassSpace; ClassChar c_at].

(** [/^[^\s@]+@[^\s@]+\.[^\s@]+$/] *)
Definition emailRegex : pattern :=
  Seq Bol
   (Seq (Plus not_space_at)
    (Seq (Char c_at)
     (Seq (Plus not_space_at)
      (Seq (Char c_dot)
       (Seq (Plus not_space_at) Eol))))).



(** The iterations of a greedy [p+] after the first one, as [matcher]
    runs them. *)
Definition more_iterations (fuel : nat) (p : pattern) (k : cont) :=
  fix more (n : nat) (i : nat) (s : jsstring) {struct n} : bool :=
    match n with
    | O => false
    | S n' =>
        matcher fuel p i s
          (fun i' s' => if Nat.ltb i i' then more n' i' s' else false)
        || k i s
    end.

(** Characters a negated class lets through. *)
Definition outside (atoms : list class_atom) (c : char16) : Prop :=
  class_matches atoms c = false.

(** A character the address pattern allows around the [@] and the dot:
    neither whitespace nor [@]. *)
Definition address_char (c : char16) : Prop :=
  is_space c = false /\ c <> c_at.

(** The shape the pattern is described by in words: a non-empty run of
    address characters, [@], a non-empty run, a dot, a non-empty run up
    to the end. *)
Definition address_shape (s : jsstring) : Prop :=
  exists l d t,
    s = l ++ c_at :: d ++ c_dot :: t
    /\ l <> [] /\ d <> [] /\ t <> []
    /\ Forall address_char l /\ Forall address_char d /\ Forall address_char t.

(** An [@] with no dot anywhere after it. *)
Definition no_dot_after_at (s : jsstring) : Prop :=
  exists l r, s = l ++ c_at :: r /\ ~ In c_dot r.

(** More than one [@]. *)
Definition several_ats (s : jsstring) : Prop :=
  (2 <= count_occ N.eq_dec s c_at)%nat.

Definition has_whitespace (s : jsstring) : Prop :=
  exists c, In c s /\ is_space c = true.

(** ** Dates *)

(** Time values are milliseconds since the epoch, in UTC.  The functions
    below are the ones ECMAScript defines [Date.prototype.toISOString]
    with; they keep its names. *)
Module Date.

Local Open Scope Z_scope.

Definition msPerDay : Z := 86400000.
Definition msPerHour : Z := 3600000.
Definition msPerMinute : Z := 60000.
Definition msPerSecond : Z := 1000.

Definition Day (t : Z) : Z := t / msPerDay.

Definition DayFromYear (y : Z) : Z :=
  365 * (y - 1970) + (y - 1969) / 4 - (y - 1901) / 100 + (y - 1601) / 400.

Definition DaysInYear (y : Z) : Z :=
  if negb (y mod 4 =? 0) then 365
  else if negb (y mod 100 =? 0) then 366
  else if negb (y mod 400 =? 0) then 365
  else 366.

(** The largest [y] with [DayFromYear y <= Day t]: one step around the
    mean-year estimate. *)
Definition YearFromTime (t : Z) : Z :=
  let d := Day t in
  let y := 1970 + (400 * d) / 146097 in
  if d <? DayFromYear y then y - 1
  else if DayFromYear (y + 1) <=? d then y + 1
  else y.

Definition InLeapYear (t : Z) : Z :=
  if DaysInYear (YearFromTime t) =? 366 then 1 else 0.

Definition DayWithinYear (t : Z) : Z :=
  Day t - DayFromYear (YearFromTime t).

Definition MonthFromTime (t : Z) : Z :=
  let d := DayWithinYear t in
  let leap := InLeapYear t in
  if d <? 31 then 0
  else if d <? 59 + leap then 1
  else if d <? 90 + leap then 2
  else if d <? 120 + leap then 3
  else if d <? 151 + leap then 4
  else if d <? 181 + leap then 5
  else if d <? 212 + leap then 6
  else if d <? 243 + leap then 7
  else if d <? 273 + leap then 8
  else if d <? 304 + leap then 9
  else if d <? 334 + leap then 10
  else 11.

Definition DateFromTime (t : Z) : Z :=
  let d := DayWithinYear t in
  let leap := InLeapYear t in
  match MonthFromTime t with
  | 0 => d + 1
  | 1 => d - 30
  | 2 => d - 58 - leap
  | 3 => d - 89 - leap
  | 4 => d - 119 - leap
  | 5 => d - 150 - leap
  | 6 => d - 180 - leap
  | 7 => d - 211 - leap
  | 8 => d - 242 - leap
  | 9 => d - 272 - leap
  | 10 => d - 303 - leap
  | _ => d - 333 - leap
  end.

Definition HourFromTime (t : Z) : Z := (t / msPerHour) mod 24.
Definition MinFromTime (t : Z) : Z := (t / msPerMinute) mod 60.
Definition SecFromTime (t : Z) : Z := (t / msPerSecond) mod 60.
Definition msFromTime (t : Z) : Z := t mod msPerSecond.

(** The last [width] decimal digits of [n], zero-padded. *)
Fixpoint digits (width : nat) (n : Z) : jsstring :=
  match width with
  | O => []
  | S w => digits w (n / 10) ++ [Z.to_N (48 + n mod 10)]
  end.

(** Years 0 to 9999 take four digits, the others a sign and six. *)
Definition year_digits (y : Z) : jsstring :=
  if (0 <=? y) && (y <=? 9999) then digits 4 y
  else (if 0 <=? y then js "+" else js "-") ++ digits 6 (Z.abs y).

(** [Date.prototype.toISOString] on a time value:
    [YYYY-MM-DDTHH:mm:ss.sssZ], in UTC. *)
Definition toISOString (t : Z) : jsstring :=
  year_digits (YearFromTime t)
  ++ js "-" ++ digits 2 (MonthFromTime t + 1)
  ++ js "-" ++ digits 2 (DateFromTime t)
  ++ js "T" ++ digits 2 (HourFromTime t)
  ++ js ":" ++ digits 2 (MinFromTime t)
  ++ js ":" ++ digits 2 (SecFromTime t)
  ++ js "." ++ digits 3 (msFromTime t)
  ++ js "Z".

End Date.



(** ** Well-formed timestamps *)

Module Iso8601.

Local Open Scope Z_scope.

Definition is_digit (c : char16) : bool := ((48 <=? c) && (c <=? 57))%N.

(** Read exactly [n] decimal digits, most significant first. *)
Fixpoint read_digits (n : nat) (acc : Z) (s : jsstring) : option (Z * jsstring) :=
  match n with
  | O => Some (acc, s)
  | S n' =>
      match s with
      | c :: s' =>
          if is_digit c
          then read_digits n' (10 * acc + (Z.of_N c - 48)) s'
          else None
      | [] => None
      end
  end.

Definition expect (c : char16) (s : jsstring) : option jsstring :=
  match s with
  | d :: s' => if (d =? c)%N then Some s' else None
  | [] => None
  end.

(** [YYYY], or a sign and [YYYYYY] (and never [-000000]). *)
Definition read_year (s : jsstring) : option (Z * jsstring) :=
  match s with
  | c :: s' =>
      if (c =? 43)%N then read_digits 6 0 s'
      else if (c =? 45)%N then
        match read_digits 6 0 s' with
        | Some (y, r) => if y =? 0 then None else Some (- y, r)
        | None => None
        end
      else read_digits 4 0 s
  | [] => None
  end.

(** A field of [n] digits followed by the separator [sep], its value
    between [lo] and [hi]. *)
Definition field (n : nat) (lo hi : Z) (sep : char16) (s : jsstring)
  : option jsstring :=
  match read_digits n 0 s with
  | Some (v, r) => if (lo <=? v) && (v <=? hi) then expect sep r else None
  | None => None
  end.

Definition and_then (o : option jsstring) (f : jsstring -> option jsstring)
  : option jsstring :=
  match o with
  | Some r => f r
  | None => None
  end.

(** A UTC date-time [YYYY-MM-DDTHH:mm:ss.sssZ] of ISO 8601, the year
    possibly in the expanded form. *)
Definition well_formed (s : jsstring) : bool :=
  match read_year s with
  | None => false
  | Some (_, r) =>
      match
        and_then (expect 45%N r) (fun r =>
        and_then (field 2 1 12 45%N r) (fun r =>
        and_then (field 2 1 31 84%N r) (fun r =>
        and_then (field 2 0 23 58%N r) (fun r =>
        and_then (field 2 0 59 58%N r) (fun r =>
        and_then (field 2 0 59 46%N r) (fun r =>
        field 3 0 999 90%N r))))))
      with
      | Some [] => true
      | _ => false
      end
  end.

End Iso8601.

(** ** The outside world: clock, mail transport, console *)

(** A thrown JavaScript error. *)
Record jserror := JsError { error_name : jsstring; error_message : jsstring }.

(** The argument of [transporter.sendMail]. *)
Record Mail := {
  from : jsval;
  to : jsval;
  subject : jsstring;
  html : jsstring;
  replyTo : jsval
}.

Inductive Event :=
| EvSendMail (m : Mail) (rejected : option jserror)   (* one transport call *)
| EvConsoleError (label : jsstring) (e : jserror).    (* console.error *)

Record World := {
  now : Z;                                             (* time value of new Date() *)
  transport : list Event -> Mail -> option jserror;    (* what the transport answers *)
  trace : list Event                                   (* what has happened so far *)
}.

Definition with_trace (w : World) (t : list Event) : World :=
  {| now := now w; transport := transport w; trace := t |}.

Definition with_now (w : World) (t : Z) : World :=
  {| now := t; transport := transport w; trace := trace w |}.

(** Computations that read and extend the world and may throw. *)
Inductive completion (A : Type) :=
| Normal (a : A)
| Throw (e : jserror).

Arguments Normal {A} a.
Arguments Throw {A} e.

Definition M (A : Type) : Type := World -> completion A * World.

Definition ret {A} (a : A) : M A := fun w => (Normal a, w).

Definition bind {A B} (m : M A) (f : A -> M B) : M B :=
  fun w =>
    match m w with
    | (Normal a, w') => f a w'
    | (Throw e, w') => (Throw e, w')
    end.

Definition try_catch {A} (m : M A) (handler : jserror -> M A) : M A :=
  fun w =>
    match m w with
    | (Normal a, w') => (Normal a, w')
    | (Throw e, w') => handler e w'
    end.

Declare Scope js_scope.
Delimit Scope js_scope with js.
Notation "x <- m ;; k" := (bind m (fun x => k))
  (at level 61, m at next level, right associativity) : js_scope.
Notation "m ;; k" := (bind m (fun _ => k))
  (at level 61, right associativity) : js_scope.
Open Scope js_scope.

(** [new Date()], as its time value. *)
Definition new_Date : M Z := fun w => (Normal (now w), w).

(** [await transporter.sendMail(m)]: the call is recorded; a rejected
    promise is thrown at the [await]. *)
Definition sendMail (m : Mail) : M unit :=
  fun w =>
    let r := transport w (trace w) m in
    let w' := with_trace w (trace w ++ [EvSendMail m r]) in
    match r with
    | None => (Normal tt, w')
    | Some e => (Throw e, w')
    end.

Definition console_error (label : jsstring) (e : jserror) : M unit :=
  fun w => (Normal tt, with_trace w (trace w ++ [EvConsoleError label e])).

(** ** Requests, responses, configuration *)

(** [req.body], an object, destructured into the six fields the handler
    reads. *)
Record Body := {
  name : jsval;
  email : jsval;
  website : jsval;
  phone : jsval;
  service : jsval;
  message : jsval
}.

(** What [res.status(..).json(..)] sends: a status and a JSON object,
    its properties in the order written. *)
Record Response := {
  status : nat;
  body : list (string * jsval)
}.

(** [res.json(obj)] without [res.status]: the status stays 200. *)
Definition res_json (obj : list (string * jsval)) : Response :=
  {| status := 200; body := obj |}.

Definition res_status_json (code : nat) (obj : list (string * jsval)) : Response :=
  {| status := code; body := obj |}.

(** [process.env]: every entry is a string or unset. *)
Record Env := {
  EMAIL_USER : option jsstring;
  EMAIL_PASS : option jsstring;
  RECIPIENT_EMAIL : option jsstring;
  PORT : option jsstring
}.

Definition env_value (o : option jsstring) : jsval :=
  match o with
  | Some s => JStr s
  | None => JUndefined
  end.

(** ** Template literals *)

Definition nl : jsstring := [10%N].

Definition indent16 : jsstring := js "                ".
Definition indent12 : jsstring := js "            ".

(** One line of a multi-line template: the line break that ends the
    previous line, the indentation, the text. *)
Definition line (text : jsstring) : jsstring := nl ++ indent16 ++ text.

(** [req.body] is the parsed object, or [undefined] when no body parser
    took the request (as Express 5 leaves it; Express 4 puts an empty
    object there).  [const { name, ... } = req.body] binds the fields of
    the object and throws a [TypeError] on [undefined]. *)
Definition cannot_destructure : jserror :=
  JsError (js "TypeError")
    (js "Cannot destructure property 'name' of 'req.body' as it is undefined.").

Definition destructure (req_body : option Body) : M Body :=
  fun w =>
    match req_body with
    | Some b => (Normal b, w)
    | None => (Throw cannot_destructure, w)
    end.

(** The parsed body of a request that carried an empty JSON object. *)
Definition empty_body : Body :=
  {| name := JUndefined; email := JUndefined; website := JUndefined;
     phone := JUndefined; service := JUndefined; message := JUndefined |}.

Section Handlers.

Variable process_env : Env.

(** [Date.prototype.toLocaleString] on a time value: its output depends
    on the locale and the time zone of the host. *)
Variable toLocaleString : Z -> jsstring.

(** [${phone ? `<p><strong>Phone:</strong> ${phone}</p>` : ''}] *)
Definition phone_line (phone : jsval) : jsstring :=
  if truthy phone
  then js "<p><strong>Phone:</strong> " ++ ToString phone ++ js "</p>"
  else [].

(** [${message ? `<p><strong>Message:</strong><br>${message}</p>` : ''}] *)
Definition message_line (message : jsval) : jsstring :=
  if truthy message
  then js "<p><strong>Message:</strong><br>" ++ ToString message ++ js "</p>"
  else [].

Definition mailOptions (b : Body) (date : Z) : Mail :=
  {| from := env_value (EMAIL_USER process_env);
     to := js_or (env_value (RECIPIENT_EMAIL process_env))
                 (JStr (js "hello@markgrow.com"));
     subject := js "New SEO Audit Request from " ++ ToString (name b);
     html :=
       line (js "<h2>New Contact Form Submission</h2>")
       ++ line (js "<p><strong>Name:</strong> " ++ ToString (name b) ++ js "</p>")
       ++ line (js "<p><strong>Email:</strong> " ++ ToString (email b) ++ js "</p>")
       ++ line (js "<p><strong>Website:</strong> " ++ ToString (website b) ++ js "</p>")
       ++ line (phone_line (phone b))
       ++ line (js "<p><strong>Service:</strong> "
                ++ ToString (js_or (service b) (JStr (js "Not specified")))
                ++ js "</p>")
       ++ line (message_line (message b))
       ++ line (js "<hr>")
       ++ line (js "<p><small>Submitted: " ++ toLocaleString date ++ js "</small></p>")
       ++ nl ++ indent12;
     replyTo := email b |}.

Definition confirmationEmail (b : Body) : Mail :=
  {| from := env_value (EMAIL_USER process_env);
     to := email b;
     subject := js "Thank you for your SEO audit request - MarkGrow";
     html :=
       line (js "<h2>Thank you, " ++ ToString (name b) ++ js "!</h2>")
       ++ line (js "<p>We've received your request for a free SEO audit. Our team will review your website (<strong>"
                ++ ToString (website b)
                ++ js "</strong>) and send you a comprehensive report within 24 hours.</p>")
       ++ line (js "<p>If you have any questions, feel free to reply to this email.</p>")
       ++ line (js "<hr>")
       ++ line (js "<p><strong>MarkGrow Team</strong><br>")
       ++ line (js "ROI-Driven SEO Services</p>")
       ++ nl ++ indent12;
     replyTo := JUndefined |}.

Definition missing_fields_response : Response :=
  res_status_json 400
    [("success", JBool false); ("error", JStr (js "Missing required fields"))]%string.

Definition invalid_email_response : Response :=
  res_status_json 400
    [("success", JBool false); ("error", JStr (js "Invalid email address"))]%string.

Definition success_response : Response :=
  res_json
    [("success", JBool true); ("message", JStr (js "Form submitted successfully"))]%string.

Definition server_error_response : Response :=
  res_status_json 500
    [("success", JBool false);
     ("error", JStr (js "Internal server error. Please try again later."))]%string.

(** What the [try] block does with the six fields once they are bound:
    the two checks, the two sends, the acknowledgement. *)
Definition submit_form_fields (b : Body) : M Response :=
  if negb (truthy (name b)) || negb (truthy (email b)) || negb (truthy (website b))
  then ret missing_fields_response
  else if negb (test emailRegex (ToString (email b)))
  then ret invalid_email_response
  else
    date <- new_Date ;;
    sendMail (mailOptions b date) ;;
    sendMail (confirmationEmail b) ;;
    ret success_response.

(** The body of the [try] block of [app.post('/api/submit-form', ...)]:
    [req.body] is destructured first, then the fields are handled. *)
Definition submit_form_try (req_body : option Body) : M Response :=
  b <- destructure req_body ;;
  submit_form_fields b.

(** [app.post('/api/submit-form', async (req, res) => { try ... catch ... })] *)
Definition submit_form_handler (req_body : option Body) : M Response :=
  try_catch (submit_form_try req_body)
    (fun error =>
       console_error (js "Form submission error:") error ;;
       ret server_error_response).

(** The handler on a request whose body was parsed into the object [b]. *)
Definition submit_form (b : Body) : M Response :=
  submit_form_handler (Some b).

(** [app.get('/health', (req, res) => ...)] *)
Definition health : M Response :=
  date <- new_Date ;;
  ret (res_json [("status", JStr (js "ok"));
                 ("timestamp", JStr (Date.toISOString date))]%string).

End Handlers.

(** ** Vocabulary of the specification *)

(** A field that holds a non-empty string. *)
Definition filled (v : jsval) : Prop := exists s, v = JStr s /\ s <> [].

(** A field that is missing ([undefined], or JSON [null]) or empty. *)
Definition missing_or_empty (v : jsval) : Prop :=
  v = JUndefined \/ v = JNull \/ v = JStr [].

(** The email field matches the address pattern. *)
Definition matches_address_pattern (v : jsval) : Prop :=
  test emailRegex (ToString v) = true.

(** A valid submission: the three required fields are non-empty and the
    email matches the address pattern. *)
Definition valid_submission (b : Body) : Prop :=
  filled (name b) /\ filled (email b) /\ filled (website b)
  /\ matches_address_pattern (email b).

(** The mail transport calls among some events, in order. *)
Fixpoint transport_calls (evs : list Event) : list Mail :=
  match evs with
  | [] => []
  | EvSendMail m _ :: evs' => m :: transport_calls evs'
  | EvConsoleError _ _ :: evs' => transport_calls evs'
  end.

(** The answers the transport gave among some events, in order. *)
Fixpoint transport_results (evs : list Event) : list (option jserror) :=
  match evs with
  | [] => []
  | EvSendMail _ r :: evs' => r :: transport_results evs'
  | EvConsoleError _ _ :: evs' => transport_results evs'
  end.

(** The events a run added to the trace. *)
Definition new_events (before after : World) : list Event :=
  skipn (List.length (trace before)) (trace after).

(** A transport that accepts every message. *)
Definition transport_available (w : World) : Prop :=
  forall history m, transport w history m = None.

Definition console_label : jsstring := js "Form submission error:".

(** [needle] occurs in [hay]. *)
Definition contains (needle hay : jsstring) : Prop :=
  exists pre post, hay = pre ++ needle ++ post.

(** A time value a [Date] can hold: at most 8.64e15 ms from the epoch. *)
Definition valid_time_value (t : Z) : Prop :=
  (-8640000000000000 <= t <= 8640000000000000)%Z.

(** A string of whitespace only, and not empty. *)
Definition blank (s : jsstring) : Prop :=
  s <> [] /\ Forall (fun c => is_space c = true) s.

(** The notification recipient as a reading of the configuration that
    falls back to the fixed address only for an unset entry. *)
Definition recipient_when_unset_only (env : Env) : jsval :=
  match RECIPIENT_EMAIL env with
  | Some s => JStr s
  | None => JStr (js "hello@markgrow.com")
  end.

(** ** Sample requests, configurations and worlds *)

(** The sample submission of the setup guide. *)
Definition john_smith : Body :=
  {| name := JStr (js "John Smith");
     email := JStr (js "john@company.com");
     website := JStr (js "https://example.com");
     phone := JUndefined;
     service := JStr (js "on-page");
     message := JUndefined |}.

Definition with_email (b : Body) (v : jsval) : Body :=
  {| name := name b; email := v; website := website b;
     phone := phone b; service := service b; message := message b |}.

Definition with_name (b : Body) (v : jsval) : Body :=
  {| name := v; email := email b; website := website b;
     phone := phone b; service := service b; message := message b |}.

(** The example [.env] file of the source. *)
Definition example_env : Env :=
  {| EMAIL_USER := Some (js "your-email@gmail.com");
     EMAIL_PASS := Some (js "your-app-password");
     RECIPIENT_EMAIL := Some (js "hello@markgrow.com");
     PORT := Some (js "3000") |}.

(** The same file with the line [RECIPIENT_EMAIL=] left blank. *)
Definition blank_recipient_env : Env :=
  {| EMAIL_USER := Some (js "your-email@gmail.com");
     EMAIL_PASS := Some (js "your-app-password");
     RECIPIENT_EMAIL := Some [];
     PORT := Some (js "3000") |}.

(** A host whose local rendering of every instant is the same text. *)
Definition fixed_locale : Z -> jsstring :=
  fun _ => js "11/14/2023, 10:13:20 PM".

Definition connection_refused : jserror :=
  JsError (js "Error") (js "connect ECONNREFUSED 127.0.0.1:587").

(** Nothing has happened yet and the transport accepts every message. *)
Definition quiet_world : World :=
  {| now := 1700000000000; transport := fun _ _ => None; trace := [] |}.

(** The transport refuses every message. *)
Definition offline_world : World :=
  {| now := 1700000000000;
     transport := fun _ _ => Some connection_refused;
     trace := [] |}.

(** The transport accepts the first message of a run and refuses the rest. *)
Definition flaky_world : World :=
  {| now := 1700000000000;
     transport := fun history _ =>
                    match history with
                    | [] => None
                    | _ :: _ => Some connection_refused
                    end;
     trace := [] |}.

(** ** Runs, looked at from outside *)

(** The two checks of the form handler, as one condition on the body. *)
Definition passes_validation (b : Body) : bool :=
  truthy (name b) && truthy (email b) && truthy (website b)
  && test emailRegex (ToString (email b)).

(** The errors written with [console.error] among some events, in order. *)
Fixpoint console_errors (evs : list Event) : list jserror :=
  match evs with
  | [] => []
  | EvSendMail _ _ :: evs' => console_errors evs'
  | EvConsoleError _ e :: evs' => e :: console_errors evs'
  end.

(** The transport refuses the second message it is handed and accepts
    every other one. *)
Definition hiccup_world : World :=
  {| now := 1700000000000;
     transport := fun history _ =>
                    match history with
                    | [_] => Some connection_refused
                    | _ => None
                    end;
     trace := [] |}.

(** ** The two routes, request after request *)


Section Application.

Variable process_env : Env.
Variable toLocaleString : Z -> jsstring.



End Application.



(** ** Reading a timestamp back *)

(** The inverse direction of [Date.toISOString]: the time value of a
    date-time string, composed with the functions ECMAScript names
    [MakeTime], [MakeDay] and [MakeDate]. *)
Module DateTimeString.

Local Open Scope Z_scope.

Definition MakeTime (hour min sec ms : Z) : Z :=
  hour * Date.msPerHour + min * Date.msPerMinute + sec * Date.msPerSecond + ms.

(** The day within its year on which month [m] (0 to 11) starts. *)
Definition month_start (m leap : Z) : Z :=
  match m with
  | 0 => 0
  | 1 => 31
  | 2 => 59 + leap
  | 3 => 90 + leap
  | 4 => 120 + leap
  | 5 => 151 + leap
  | 6 => 181 + leap
  | 7 => 212 + leap
  | 8 => 243 + leap
  | 9 => 273 + leap
  | 10 => 304 + leap
  | _ => 334 + leap
  end.

(** The day number of the [date]-th day of month [month] (0 to 11) of
    [year]. *)
Definition MakeDay (year month date : Z) : Z :=
  Date.DayFromYear year
  + month_start month (if Date.DaysInYear year =? 366 then 1 else 0)
  + date - 1.

Definition MakeDate (day time : Z) : Z := day * Date.msPerDay + time.

(** [n] digits and then the separator [sep]. *)
Definition number (n : nat) (sep : char16) (s : jsstring)
  : option (Z * jsstring) :=
  match Iso8601.read_digits n 0 s with
  | Some (v, r) =>
      match Iso8601.expect sep r with
      | Some r' => Some (v, r')
      | None => None
      end
  | None => None
  end.

(** The time value of [YYYY-MM-DDTHH:mm:ss.sssZ] (the year possibly in
    the expanded form); [None] for any other string. *)
Definition parse (s : jsstring) : option Z :=
  match Iso8601.read_year s with
  | None => None
  | Some (year, r) =>
  match Iso8601.expect 45%N r with
  | None => None
  | Some r =>
  match number 2 45%N r with
  | None => None
  | Some (month, r) =>
  match number 2 84%N r with
  | None => None
  | Some (date, r) =>
  match number 2 58%N r with
  | None => None
  | Some (hour, r) =>
  match number 2 58%N r with
  | None => None
  | Some (min, r) =>
  match number 2 46%N r with
  | None => None
  | Some (sec, r) =>
  match number 3 90%N r with
  | Some (ms, []) =>
      Some (MakeDate (MakeDay year (month - 1) date)
                     (MakeTime hour min sec ms))
  | _ => None
  end end end end end end end
  end.

End DateTimeString.

(** * Proofs *)

(** Lengths of pieces of the input against the fuel. *)
Ltac solve_length :=
  subst;
  repeat match goal with f := S _ |- _ => subst f end;
  repeat (rewrite length_app || cbn [List.length]);
  lia.


(** ** The address pattern *)


Lemma matcher_Plus fuel p i s k :
  matcher fuel (Plus p) i s k
  = matcher fuel p i s (more_iterations fuel p k fuel).
Proof. reflexivity. Qed.

Lemma matcher_Seq fuel p q i s k :
  matcher fuel (Seq p q) i s k
  = matcher fuel p i s (fun i' s' => matcher fuel q i' s' k).
Proof. reflexivity. Qed.

Lemma more_iterations_NotClass fuel atoms k n : forall i s,
  (List.length s < n)%nat ->
  more_iterations fuel (NotClass atoms) k n i s = true <->
  exists pre post,
    s = pre ++ post /\ Forall (outside atoms) pre
    /\ k (i + List.length pre)%nat post = true.
Proof.
  induction n as [|n IH]; intros i s Hlen; [lia|].
  cbn [more_iterations matcher].
  rewrite orb_true_iff. split.
  - intros [H|H].
    + destruct s as [|d s']; [discriminate|].
      destruct (class_matches atoms d) eqn:Hd; [discriminate|].
      assert (Hlt : Nat.ltb i (S i) = true) by (apply Nat.ltb_lt; lia).
      rewrite Hlt in H.
      apply IH in H; [|simpl in Hlen; lia].
      destruct H as (pre & post & -> & Hall & Hk).
      exists (d :: pre), post. repeat split.
      * constructor; assumption.
      * simpl. replace (i + S (List.length pre))%nat
          with (S i + List.length pre)%nat by lia. exact Hk.
    + exists [], s. repeat split; [constructor|].
      simpl. rewrite Nat.add_0_r. exact H.
  - intros (pre & post & -> & Hall & Hk).
    destruct pre as [|d pre].
    + right. simpl in Hk. rewrite Nat.add_0_r in Hk. exact Hk.
    + left. simpl. inversion Hall as [|? ? Hd Hall']; subst.
      unfold outside in Hd. rewrite Hd.
      assert (Hlt : Nat.ltb i (S i) = true) by (apply Nat.ltb_lt; lia).
      rewrite Hlt.
      apply IH; [simpl in Hlen; lia|].
      exists pre, post. repeat split; [assumption|].
      simpl in Hk. replace (S i + List.length pre)%nat
        with (i + S (List.length pre))%nat by lia. exact Hk.
Qed.

(** A greedy [[^...]+] takes any non-empty run of characters outside the
    class after which the continuation succeeds. *)
Lemma matcher_Plus_NotClass fuel atoms k i s :
  (List.length s <= fuel)%nat ->
  matcher fuel (Plus (NotClass atoms)) i s k = true <->
  exists pre post,
    s = pre ++ post /\ pre <> [] /\ Forall (outside atoms) pre
    /\ k (i + List.length pre)%nat post = true.
Proof.
  intros Hlen. rewrite matcher_Plus. cbn [matcher]. split.
  - destruct s as [|d s']; [discriminate|].
    destruct (class_matches atoms d) eqn:Hd; [discriminate|].
    intros H. apply more_iterations_NotClass in H; [|simpl in Hlen; lia].
    destruct H as (pre & post & -> & Hall & Hk).
    exists (d :: pre), post. repeat split.
    + discriminate.
    + constructor; assumption.
    + simpl. replace (i + S (List.length pre))%nat
        with (S i + List.length pre)%nat by lia. exact Hk.
  - intros (pre & post & -> & Hne & Hall & Hk).
    destruct pre as [|d pre]; [congruence|].
    inversion Hall as [|? ? Hd Hall']; subst.
    simpl. unfold outside in Hd. rewrite Hd.
    apply more_iterations_NotClass; [simpl in Hlen; lia|].
    exists pre, post. repeat split; [assumption|].
    simpl in Hk. replace (S i + List.length pre)%nat
      with (i + S (List.length pre))%nat by lia. exact Hk.
Qed.

Lemma matcher_Char fuel c i s k :
  matcher fuel (Char c) i s k = true <->
  exists s', s = c :: s' /\ k (S i) s' = true.
Proof.
  cbn [matcher]. split.
  - destruct s as [|d s']; [discriminate|].
    destruct (N.eqb_spec d c); [|discriminate].
    subst. intros H. exists s'. split; [reflexivity|assumption].
  - intros (s' & -> & Hk). rewrite N.eqb_refl. exact Hk.
Qed.

Lemma matcher_Eol fuel i s k :
  matcher fuel Eol i s k = true <-> s = [] /\ k i [] = true.
Proof.
  cbn [matcher]. destruct s; split.
  - intros H. split; [reflexivity|assumption].
  - intros [_ H]. exact H.
  - discriminate.
  - intros [H _]. discriminate.
Qed.

(** A pattern that starts with [^] matches at index 0 only. *)
Lemma search_Bol_later fuel q s : forall i,
  i <> 0%nat -> search fuel (Seq Bol q) i s = false.
Proof.
  induction s as [|c s IH]; intros i Hi; cbn [search matcher].
  - destruct (Nat.eqb_spec i 0); [contradiction|reflexivity].
  - destruct (Nat.eqb_spec i 0); [contradiction|].
    simpl. apply IH. lia.
Qed.

Lemma test_Bol q s :
  test (Seq Bol q) s
  = matcher (S (List.length s)) q 0 s (fun _ _ => true).
Proof.
  unfold test. destruct s as [|c s]; cbn [search matcher Nat.eqb].
  - apply orb_false_r.
  - rewrite search_Bol_later by lia. apply orb_false_r.
Qed.


Lemma outside_address_char c :
  outside [ClassSpace; ClassChar c_at] c <-> address_char c.
Proof.
  unfold outside, address_char, class_matches. cbn [existsb atom_matches].
  rewrite orb_false_r, orb_false_iff, N.eqb_neq. reflexivity.
Qed.

Lemma Forall_outside_address l :
  Forall (outside [ClassSpace; ClassChar c_at]) l <-> Forall address_char l.
Proof.
  split; intros H; eapply Forall_impl; try exact H;
    intros c Hc; apply outside_address_char; exact Hc.
Qed.

Lemma emailRegex_shape s : test emailRegex s = true <-> address_shape s.
Proof.
  unfold emailRegex, not_space_at. rewrite test_Bol.
  set (fuel := S (List.length s)).
  rewrite matcher_Seq.
  split.
  - intros H. apply matcher_Plus_NotClass in H; [|solve_length].
    destruct H as (l & r1 & Hs & Hl & Hal & H).
    rewrite matcher_Seq in H. apply matcher_Char in H.
    destruct H as (r2 & -> & H).
    rewrite matcher_Seq in H.
    apply matcher_Plus_NotClass in H;
      [|solve_length].
    destruct H as (d & r3 & -> & Hd & Had & H).
    rewrite matcher_Seq in H. apply matcher_Char in H.
    destruct H as (r4 & -> & H).
    rewrite matcher_Seq in H.
    apply matcher_Plus_NotClass in H;
      [|solve_length].
    destruct H as (t & r5 & -> & Ht & Hat & H).
    apply matcher_Eol in H. destruct H as [-> _].
    exists l, d, t. rewrite app_nil_r in Hs.
    repeat split; try assumption; apply Forall_outside_address; assumption.
  - intros (l & d & t & Hs & Hl & Hd & Ht & Hal & Had & Hat).
    apply matcher_Plus_NotClass; [solve_length|].
    exists l, (c_at :: d ++ c_dot :: t).
    split; [exact Hs|]. split; [exact Hl|].
    split; [apply Forall_outside_address; exact Hal|].
    rewrite matcher_Seq. apply matcher_Char.
    exists (d ++ c_dot :: t). split; [reflexivity|].
    rewrite matcher_Seq. apply matcher_Plus_NotClass.
    { solve_length. }
    exists d, (c_dot :: t).
    split; [reflexivity|]. split; [exact Hd|].
    split; [apply Forall_outside_address; exact Had|].
    rewrite matcher_Seq. apply matcher_Char.
    exists t. split; [reflexivity|].
    rewrite matcher_Seq. apply matcher_Plus_NotClass.
    { solve_length. }
    exists t, []. split; [symmetry; apply app_nil_r|].
    split; [exact Ht|].
    split; [apply Forall_outside_address; exact Hat|].
    apply matcher_Eol. split; reflexivity.
Qed.

(** The pattern on a few addresses. *)
Example emailRegex_john : test emailRegex (js "john@company.com") = true.
Proof. vm_compute. reflexivity. Qed.

Example emailRegex_not_an_email : test emailRegex (js "not-an-email") = false.
Proof. vm_compute. reflexivity. Qed.

Example emailRegex_two_ats : test emailRegex (js "a@b@c.d") = false.
Proof. vm_compute. reflexivity. Qed.

Example emailRegex_inner_space : test emailRegex (js "jo hn@company.com") = false.
Proof. vm_compute. reflexivity. Qed.

Example emailRegex_many_dots : test emailRegex (js "a.b@c.d.e") = true.
Proof. vm_compute. reflexivity. Qed.

Example emailRegex_trailing_dot : test emailRegex (js "a@b.") = false.
Proof. vm_compute. reflexivity. Qed.

(** ** Dates and timestamps *)

Section DateFacts.

Import Date.
Local Open Scope Z_scope.

Lemma DayFromYear_succ y : DayFromYear (y + 1) = DayFromYear y + DaysInYear y.
Proof.
  unfold DayFromYear, DaysInYear.
  destruct (Z.eqb_spec (y mod 4) 0), (Z.eqb_spec (y mod 100) 0),
    (Z.eqb_spec (y mod 400) 0); cbn [negb];
    Z.div_mod_to_equations; lia.
Qed.

Lemma DaysInYear_range y : DaysInYear y = 365 \/ DaysInYear y = 366.
Proof.
  unfold DaysInYear.
  destruct (negb (y mod 4 =? 0)), (negb (y mod 100 =? 0)),
    (negb (y mod 400 =? 0)); auto.
Qed.

Lemma YearFromTime_spec t :
  DayFromYear (YearFromTime t) <= Day t < DayFromYear (YearFromTime t + 1).
Proof.
  unfold YearFromTime.
  set (d := Day t). set (y := 1970 + 400 * d / 146097).
  assert (Hlo : DayFromYear (y - 1) <= d).
  { unfold DayFromYear, y. Z.div_mod_to_equations. lia. }
  assert (Hhi : d < DayFromYear (y + 2)).
  { unfold DayFromYear, y. Z.div_mod_to_equations. lia. }
  destruct (Z.ltb_spec d (DayFromYear y)).
  - replace (y - 1 + 1) with y by lia. lia.
  - destruct (Z.leb_spec (DayFromYear (y + 1)) d).
    + replace (y + 1 + 1) with (y + 2) by lia. lia.
    + lia.
Qed.

Lemma DayFromYear_increasing y1 y2 :
  y1 < y2 -> DayFromYear y1 < DayFromYear y2.
Proof. unfold DayFromYear. intros H. Z.div_mod_to_equations. lia. Qed.

(** [YearFromTime] is the largest year that starts no later than [t]. *)
Lemma YearFromTime_largest t y :
  DayFromYear y <= Day t -> y <= YearFromTime t.
Proof.
  intros H. destruct (Z.le_gt_cases y (YearFromTime t)) as [|Hgt]; [assumption|].
  pose proof (YearFromTime_spec t) as [_ Hlt].
  destruct (Z.eq_dec y (YearFromTime t + 1)) as [->|Hne]; [lia|].
  assert (YearFromTime t + 1 < y) by lia.
  pose proof (DayFromYear_increasing _ _ H0). lia.
Qed.

Lemma DayWithinYear_range t :
  0 <= DayWithinYear t < 365 + InLeapYear t.
Proof.
  unfold DayWithinYear, InLeapYear.
  pose proof (YearFromTime_spec t) as [Hlo Hhi].
  rewrite DayFromYear_succ in Hhi.
  destruct (DaysInYear_range (YearFromTime t)) as [E|E]; rewrite E in *;
    cbn [Z.eqb Pos.eqb]; lia.
Qed.

Lemma InLeapYear_range t : InLeapYear t = 0 \/ InLeapYear t = 1.
Proof. unfold InLeapYear. destruct (_ =? _); auto. Qed.

Lemma MonthFromTime_range t : 0 <= MonthFromTime t <= 11.
Proof.
  unfold MonthFromTime.
  repeat match goal with
         | |- context [if ?c then _ else _] => destruct c
         end; lia.
Qed.

Lemma DateFromTime_range t : 1 <= DateFromTime t <= 31.
Proof.
  pose proof (DayWithinYear_range t) as Hd.
  pose proof (InLeapYear_range t) as Hl.
  unfold DateFromTime, MonthFromTime.
  repeat match goal with
         | |- context [if ?a <? ?b then _ else _] =>
             destruct (Z.ltb_spec a b)
         end; lia.
Qed.

Lemma HourFromTime_range t : 0 <= HourFromTime t <= 23.
Proof. unfold HourFromTime. pose proof (Z.mod_pos_bound (t / msPerHour) 24). lia. Qed.

Lemma MinFromTime_range t : 0 <= MinFromTime t <= 59.
Proof. unfold MinFromTime. pose proof (Z.mod_pos_bound (t / msPerMinute) 60). lia. Qed.

Lemma SecFromTime_range t : 0 <= SecFromTime t <= 59.
Proof. unfold SecFromTime. pose proof (Z.mod_pos_bound (t / msPerSecond) 60). lia. Qed.

Lemma msFromTime_range t : 0 <= msFromTime t <= 999.
Proof. unfold msFromTime, msPerSecond. pose proof (Z.mod_pos_bound t 1000). lia. Qed.

Import Iso8601.

Lemma is_digit_digit d :
  0 <= d <= 9 -> is_digit (Z.to_N (48 + d)) = true.
Proof.
  intros H. unfold is_digit.
  apply andb_true_intro; split; apply N.leb_le; lia.
Qed.

(** Reading back what [digits] printed. *)
Lemma read_digits_digits w : forall x acc k r,
  read_digits (w + k) acc (digits w x ++ r)
  = read_digits k (acc * 10 ^ Z.of_nat w + x mod 10 ^ Z.of_nat w) r.
Proof.
  induction w as [|w IH]; intros x acc k r.
  - cbn [digits app Nat.add]. f_equal. change (10 ^ Z.of_nat 0) with 1.
    rewrite Z.mod_1_r. lia.
  - cbn [digits]. rewrite <- app_assoc. cbn [app].
    replace (S w + k)%nat with (w + S k)%nat by lia.
    rewrite IH. cbn [read_digits].
    pose proof (Z.mod_pos_bound x 10 ltac:(lia)) as Hd.
    rewrite is_digit_digit by lia.
    f_equal. rewrite Z2N.id by lia.
    rewrite Nat2Z.inj_succ, Z.pow_succ_r by lia.
    rewrite (Z.rem_mul_r x 10 (10 ^ Z.of_nat w)) by lia.
    lia.
Qed.

Lemma read_digits_exact w x r :
  0 <= x < 10 ^ Z.of_nat w ->
  read_digits w 0 (digits w x ++ r) = Some (x, r).
Proof.
  intros H. replace w with (w + 0)%nat at 1 by lia.
  rewrite read_digits_digits. cbn [read_digits].
  rewrite Z.mod_small by lia. reflexivity.
Qed.

Lemma field_digits w lo hi sep x r :
  0 <= x < 10 ^ Z.of_nat w -> lo <= x <= hi ->
  field w lo hi sep (digits w x ++ sep :: r) = Some r.
Proof.
  intros Hx Hr. unfold field. rewrite read_digits_exact by assumption.
  replace ((lo <=? x) && (x <=? hi)) with true
    by (symmetry; apply andb_true_intro; split; apply Z.leb_le; lia).
  cbn [expect]. rewrite N.eqb_refl. reflexivity.
Qed.

Lemma digits_head w x r :
  exists c rest, digits (S w) x ++ r = c :: rest /\ is_digit c = true.
Proof.
  revert x r. induction w as [|w IH]; intros x r.
  - cbn [digits app]. eexists _, _. split; [reflexivity|].
    apply is_digit_digit. pose proof (Z.mod_pos_bound x 10). lia.
  - change (digits (S (S w)) x) with (digits (S w) (x / 10) ++ [Z.to_N (48 + x mod 10)]).
    rewrite <- app_assoc. apply IH.
Qed.

(** The year printed by [year_digits] reads back as a year. *)
Lemma read_year_year_digits y r :
  -999999 <= y <= 999999 ->
  exists v, read_year (year_digits y ++ r) = Some (v, r).
Proof.
  intros Hy. unfold year_digits.
  destruct (Z.leb_spec 0 y) as [Hpos|Hneg]; cbn [andb].
  - destruct (Z.leb_spec y 9999) as [Hsmall|Hbig].
    + exists y. unfold read_year.
      destruct (digits_head 3 y r) as (c & rest & E & Hc). rewrite E.
      unfold is_digit in Hc. apply andb_prop in Hc. destruct Hc as [H1 H2].
      apply N.leb_le in H1, H2.
      destruct (N.eqb_spec c 43); [lia|].
      destruct (N.eqb_spec c 45); [lia|].
      rewrite <- E. apply read_digits_exact. cbn. lia.
    + exists y. change (js "+") with [43%N]. cbn [app read_year N.eqb Pos.eqb].
      rewrite Z.abs_eq by lia. apply read_digits_exact. cbn. lia.
  - exists y. change (js "-") with [45%N]. cbn [app read_year N.eqb Pos.eqb].
    rewrite read_digits_exact by (cbn; lia).
    destruct (Z.eqb_spec (Z.abs y) 0); [lia|]. f_equal. f_equal. lia.
Qed.

Lemma YearFromTime_range t :
  -8640000000000000 <= t <= 8640000000000000 ->
  -271821 <= YearFromTime t <= 275760.
Proof.
  intros Ht. pose proof (YearFromTime_spec t) as [Hlo Hhi].
  assert (Hd : -100000000 <= Day t <= 100000000).
  { unfold Day, msPerDay. Z.div_mod_to_equations. lia. }
  unfold DayFromYear in Hlo, Hhi. Z.div_mod_to_equations. lia.
Qed.

Lemma toISOString_well_formed t :
  -8640000000000000 <= t <= 8640000000000000 ->
  well_formed (toISOString t) = true.
Proof.
  intros Ht. unfold toISOString, well_formed.
  pose proof (YearFromTime_range t Ht) as Hy.
  destruct (read_year_year_digits (YearFromTime t)
              (js "-" ++ digits 2 (MonthFromTime t + 1)
  ++ js "-" ++ digits 2 (DateFromTime t)
  ++ js "T" ++ digits 2 (HourFromTime t)
  ++ js ":" ++ digits 2 (MinFromTime t)
  ++ js ":" ++ digits 2 (SecFromTime t)
  ++ js "." ++ digits 3 (msFromTime t)
  ++ js "Z")) as [v E]; [lia|].
  rewrite E.
  change (js "-") with [45%N]. change (js "T") with [84%N].
  change (js ":") with [58%N]. change (js ".") with [46%N].
  change (js "Z") with [90%N].
  cbn [app expect N.eqb Pos.eqb and_then].
  pose proof (MonthFromTime_range t). pose proof (DateFromTime_range t).
  pose proof (HourFromTime_range t). pose proof (MinFromTime_range t).
  pose proof (SecFromTime_range t). pose proof (msFromTime_range t).
  rewrite field_digits by (cbn; lia). cbn [and_then].
  rewrite field_digits by (cbn; lia). cbn [and_then].
  rewrite field_digits by (cbn; lia). cbn [and_then].
  rewrite field_digits by (cbn; lia). cbn [and_then].
  rewrite field_digits by (cbn; lia). cbn [and_then].
  rewrite field_digits by (cbn; lia).
  reflexivity.
Qed.

Example toISOString_epoch :
  toISOString 0 = js "1970-01-01T00:00:00.000Z".
Proof. vm_compute. reflexivity. Qed.

Example toISOString_before_epoch :
  toISOString (-1) = js "1969-12-31T23:59:59.999Z".
Proof. vm_compute. reflexivity. Qed.

Example toISOString_leap_day :
  toISOString 951782400000 = js "2000-02-29T00:00:00.000Z".
Proof. vm_compute. reflexivity. Qed.

Example toISOString_latest :
  toISOString 8640000000000000 = js "+275760-09-13T00:00:00.000Z".
Proof. vm_compute. reflexivity. Qed.

Example toISOString_earliest :
  toISOString (-8640000000000000) = js "-271821-04-20T00:00:00.000Z".
Proof. vm_compute. reflexivity. Qed.

End DateFacts.


(** ** The form handler, case by case *)

Lemma filled_truthy v : filled v -> truthy v = true.
Proof.
  intros (s & -> & Hs). destruct s; [congruence|reflexivity].
Qed.

Lemma missing_or_empty_falsy v : missing_or_empty v -> truthy v = false.
Proof. intros [->|[->| ->]]; reflexivity. Qed.

Section Runs.

Variable env : Env.
Variable toLocaleString : Z -> jsstring.


(** On a parsed body the destructuring binds the fields and the run is
    that of the rest of the [try] block under the [catch]. *)
Lemma submit_form_parsed b w :
  submit_form env toLocaleString b w
  = try_catch (submit_form_fields env toLocaleString b)
      (fun error =>
         console_error (js "Form submission error:") error ;;
         ret server_error_response) w.
Proof. reflexivity. Qed.

(** A falsy required field: rejected before anything else happens. *)
Lemma submit_form_falsy_required b w :
  truthy (name b) && truthy (email b) && truthy (website b) = false ->
  submit_form env toLocaleString b w = (Normal missing_fields_response, w).
Proof.
  intros H. rewrite submit_form_parsed. unfold try_catch, submit_form_fields.
  destruct (truthy (name b)), (truthy (email b)), (truthy (website b));
    try discriminate; reflexivity.
Qed.

(** Required fields truthy, email off the pattern: rejected next. *)
Lemma submit_form_bad_address b w :
  truthy (name b) = true -> truthy (email b) = true ->
  truthy (website b) = true ->
  test emailRegex (ToString (email b)) = false ->
  submit_form env toLocaleString b w = (Normal invalid_email_response, w).
Proof.
  intros Hn He Hw Ht.
  rewrite submit_form_parsed. unfold try_catch, submit_form_fields.
  rewrite Hn, He, Hw, Ht. reflexivity.
Qed.

(** Past validation the run is decided by what the transport answers. *)
Lemma submit_form_accepted b w :
  truthy (name b) = true -> truthy (email b) = true ->
  truthy (website b) = true ->
  test emailRegex (ToString (email b)) = true ->
  let m1 := mailOptions env toLocaleString b (now w) in
  let m2 := confirmationEmail env b in
  submit_form env toLocaleString b w =
  match transport w (trace w) m1 with
  | Some e =>
      (Normal server_error_response,
       with_trace w (trace w ++ [EvSendMail m1 (Some e);
                                 EvConsoleError console_label e]))
  | None =>
      match transport w (trace w ++ [EvSendMail m1 None]) m2 with
      | Some e =>
          (Normal server_error_response,
           with_trace w (trace w ++ [EvSendMail m1 None;
                                     EvSendMail m2 (Some e);
                                     EvConsoleError console_label e]))
      | None =>
          (Normal success_response,
           with_trace w (trace w ++ [EvSendMail m1 None; EvSendMail m2 None]))
      end
  end.
Proof.
  intros Hn He Hw Ht m1 m2.
  rewrite submit_form_parsed. unfold try_catch, submit_form_fields.
  rewrite Hn, He, Hw, Ht. cbn [negb orb].
  unfold bind, new_Date, sendMail, console_error, ret.
  fold m1 m2.
  destruct (transport w (trace w) m1) as [e|] eqn:H1.
  - cbn [trace with_trace transport now]. rewrite <- app_assoc. reflexivity.
  - cbn [trace with_trace transport now]. 
    destruct (transport w (trace w ++ [EvSendMail m1 None]) m2) as [e|] eqn:H2.
    + cbn [trace with_trace transport now]. rewrite <- !app_assoc. reflexivity.
    + cbn [trace with_trace transport now]. rewrite <- !app_assoc. reflexivity.
Qed.

End Runs.

Lemma valid_submission_truthy b :
  valid_submission b ->
  truthy (name b) = true /\ truthy (email b) = true
  /\ truthy (website b) = true
  /\ test emailRegex (ToString (email b)) = true.
Proof.
  intros (Hn & He & Hw & Hp).
  repeat split; try (apply filled_truthy; assumption). exact Hp.
Qed.

Lemma new_events_with_trace w evs :
  new_events w (with_trace w (trace w ++ evs)) = evs.
Proof.
  unfold new_events. cbn [trace with_trace].
  rewrite skipn_app, skipn_all, Nat.sub_diag. reflexivity.
Qed.

Lemma new_events_same w : new_events w w = [].
Proof. unfold new_events. apply skipn_all. Qed.

(** The two messages differ: their subjects start differently. *)
Lemma notification_is_not_confirmation env tl b date :
  mailOptions env tl b date <> confirmationEmail env b.
Proof.
  intros H. apply (f_equal subject) in H. discriminate H.
Qed.

(** ** The claims about the form handler *)

(** C1. A submission whose name, email and website are non-empty strings
    and whose email matches the address pattern, handled while the
    transport accepts both messages: the handler makes exactly two
    transport calls, the notification first and the confirmation second,
    and answers 200 with the body [{success: true, message: 'Form
    submitted successfully'}]. *)
Theorem submit_form_valid_sends_both env tl b w :
  valid_submission b ->
  transport w (trace w) (mailOptions env tl b (now w)) = None ->
  transport w (trace w ++ [EvSendMail (mailOptions env tl b (now w)) None])
    (confirmationEmail env b) = None ->
  exists r w',
    submit_form env tl b w = (Normal r, w')
    /\ new_events w w'
       = [EvSendMail (mailOptions env tl b (now w)) None;
          EvSendMail (confirmationEmail env b) None]
    /\ transport_calls (new_events w w')
       = [mailOptions env tl b (now w); confirmationEmail env b]
    /\ status r = 200
    /\ body r = [("success", JBool true);
                 ("message", JStr (js "Form submitted successfully"))]%string.
Proof.
  intros Hv H1 H2.
  destruct (valid_submission_truthy b Hv) as (Hn & He & Hw & Hp).
  rewrite (submit_form_accepted env tl b w Hn He Hw Hp). cbv zeta.
  rewrite H1, H2.
  eexists _, _. split; [reflexivity|].
  rewrite new_events_with_trace. repeat split.
Qed.

(** Validity of a concrete submission, by evaluation. *)
Ltac prove_filled := eexists; split; [reflexivity | discriminate].
Ltac prove_valid :=
  repeat split; try prove_filled; vm_compute; reflexivity.

Lemma submit_form_valid_sends_both_john :
  exists r w',
    submit_form example_env fixed_locale john_smith quiet_world = (Normal r, w')
    /\ new_events quiet_world w'
       = [EvSendMail (mailOptions example_env fixed_locale john_smith
                        (now quiet_world)) None;
          EvSendMail (confirmationEmail example_env john_smith) None]
    /\ transport_calls (new_events quiet_world w')
       = [mailOptions example_env fixed_locale john_smith (now quiet_world);
          confirmationEmail example_env john_smith]
    /\ status r = 200
    /\ body r = [("success", JBool true);
                 ("message", JStr (js "Form submitted successfully"))]%string.
Proof.
  apply (submit_form_valid_sends_both example_env fixed_locale john_smith
           quiet_world); [prove_valid | reflexivity | reflexivity].
Defined.

(** A missing or empty required field stops the handler at its first
    check. *)
Lemma submit_form_missing_required_general env tl b w :
  missing_or_empty (name b) \/ missing_or_empty (email b)
  \/ missing_or_empty (website b) ->
  submit_form env tl b w = (Normal missing_fields_response, w)
  /\ new_events w w = [].
Proof.
  intros H. split; [|apply new_events_same].
  apply submit_form_falsy_required.
  destruct H as [H|[H|H]]; apply missing_or_empty_falsy in H; rewrite H.
  - reflexivity.
  - rewrite andb_false_r. reflexivity.
  - apply andb_false_r.
Qed.

(** On a parsed body: when name, email or website is missing or empty
    the answer is 400 with the body [{success: false, error: 'Missing
    required fields'}]; the world is left as it was, so no transport call
    is made. *)
Theorem submit_form_missing_required env tl b w :
  missing_or_empty (name b) \/ missing_or_empty (email b)
  \/ missing_or_empty (website b) ->
  exists r,
    submit_form env tl b w = (Normal r, w)
    /\ transport_calls (new_events w w) = []
    /\ status r = 400
    /\ body r = [("success", JBool false);
                 ("error", JStr (js "Missing required fields"))]%string.
Proof.
  intros H. exists missing_fields_response.
  destruct (submit_form_missing_required_general env tl b w H) as [-> ->].
  repeat split.
Qed.

Lemma submit_form_missing_required_no_email :
  exists r,
    submit_form example_env fixed_locale (with_email john_smith JUndefined)
      quiet_world = (Normal r, quiet_world)
    /\ transport_calls (new_events quiet_world quiet_world) = []
    /\ status r = 400
    /\ body r = [("success", JBool false);
                 ("error", JStr (js "Missing required fields"))]%string.
Proof.
  apply (submit_form_missing_required example_env fixed_locale
           (with_email john_smith JUndefined) quiet_world).
  right. left. left. reflexivity.
Defined.

(** C2, as the code has it.  A request whose body no parser took has
    [req.body] undefined, so name, email and website are all missing.
    The destructuring that opens the [try] block throws, the [catch]
    writes the [TypeError] to the console and the answer is the 500 with
    the generic body: not a 400, and not without an effect, although no
    message reaches the transport.  A request that carried an empty
    object, where the same three fields are missing, is answered 400
    'Missing required fields' with the world left as it was. *)
Theorem submit_form_handler_missing_body env tl w :
  (exists r w',
     submit_form_handler env tl None w = (Normal r, w')
     /\ status r = 500
     /\ body r = [("success", JBool false);
                  ("error",
                   JStr (js "Internal server error. Please try again later."))]%string
     /\ new_events w w'
        = [EvConsoleError (js "Form submission error:") cannot_destructure]
     /\ transport_calls (new_events w w') = [])
  /\ (exists r,
        submit_form_handler env tl (Some empty_body) w = (Normal r, w)
        /\ status r = 400
        /\ body r = [("success", JBool false);
                     ("error", JStr (js "Missing required fields"))]%string).
Proof.
  split.
  - eexists _, _. split; [reflexivity|].
    rewrite new_events_with_trace. repeat split.
  - exists missing_fields_response. repeat split.
Qed.

(** C3. A submission whose name, email and website are all non-empty but
    whose email does not match the address pattern is answered 400 with
    the body [{success: false, error: 'Invalid email address'}]; the world
    is left as it was, so no transport call is made. *)
Theorem submit_form_invalid_email env tl b w :
  filled (name b) -> filled (email b) -> filled (website b) ->
  ~ matches_address_pattern (email b) ->
  exists r,
    submit_form env tl b w = (Normal r, w)
    /\ transport_calls (new_events w w) = []
    /\ status r = 400
    /\ body r = [("success", JBool false);
                 ("error", JStr (js "Invalid email address"))]%string.
Proof.
  intros Hn He Hw Hp. exists invalid_email_response.
  rewrite new_events_same. repeat split.
  apply submit_form_bad_address; try (apply filled_truthy; assumption).
  unfold matches_address_pattern in Hp.
  destruct (test emailRegex (ToString (email b))); [contradiction Hp|]; reflexivity.
Qed.

Lemma submit_form_invalid_email_not_an_email :
  exists r,
    submit_form example_env fixed_locale
      (with_email john_smith (JStr (js "not-an-email"))) quiet_world
    = (Normal r, quiet_world)
    /\ transport_calls (new_events quiet_world quiet_world) = []
    /\ status r = 400
    /\ body r = [("success", JBool false);
                 ("error", JStr (js "Invalid email address"))]%string.
Proof.
  apply (submit_form_invalid_email example_env fixed_locale
           (with_email john_smith (JStr (js "not-an-email"))) quiet_world);
    try prove_filled.
  unfold matches_address_pattern. vm_compute. discriminate.
Defined.

(** C4. A valid submission during which the transport rejects the
    notification, or accepts it and rejects the confirmation, with the
    error [e]: the handler answers 500 with the fixed body [{success:
    false, error: 'Internal server error. Please try again later.'}],
    the same in both cases and for every [e]; the error itself goes to
    [console.error] and nowhere else. *)
Theorem submit_form_transport_failure env tl b w e :
  valid_submission b ->
  transport w (trace w) (mailOptions env tl b (now w)) = Some e
  \/ (transport w (trace w) (mailOptions env tl b (now w)) = None
      /\ transport w
           (trace w ++ [EvSendMail (mailOptions env tl b (now w)) None])
           (confirmationEmail env b) = Some e) ->
  exists r w' sends,
    submit_form env tl b w = (Normal r, w')
    /\ status r = 500
    /\ body r = [("success", JBool false);
                 ("error",
                  JStr (js "Internal server error. Please try again later."))]%string
    /\ new_events w w'
       = sends ++ [EvConsoleError (js "Form submission error:") e]
    /\ (sends = [EvSendMail (mailOptions env tl b (now w)) (Some e)]
        \/ sends = [EvSendMail (mailOptions env tl b (now w)) None;
                    EvSendMail (confirmationEmail env b) (Some e)]).
Proof.
  intros Hv H.
  destruct (valid_submission_truthy b Hv) as (Hn & He & Hw & Hp).
  rewrite (submit_form_accepted env tl b w Hn He Hw Hp). cbv zeta.
  destruct H as [H1|[H1 H2]].
  - rewrite H1.
    eexists _, _, [EvSendMail (mailOptions env tl b (now w)) (Some e)].
    split; [reflexivity|]. rewrite new_events_with_trace.
    repeat split. left. reflexivity.
  - rewrite H1, H2.
    eexists _, _, [EvSendMail (mailOptions env tl b (now w)) None;
                   EvSendMail (confirmationEmail env b) (Some e)].
    split; [reflexivity|]. rewrite new_events_with_trace.
    repeat split. right. reflexivity.
Qed.

Lemma submit_form_transport_failure_flaky :
  exists r w' sends,
    submit_form example_env fixed_locale john_smith flaky_world = (Normal r, w')
    /\ status r = 500
    /\ body r = [("success", JBool false);
                 ("error",
                  JStr (js "Internal server error. Please try again later."))]%string
    /\ new_events flaky_world w'
       = sends ++ [EvConsoleError (js "Form submission error:")
                     connection_refused]
    /\ (sends = [EvSendMail (mailOptions example_env fixed_locale john_smith
                               (now flaky_world)) (Some connection_refused)]
        \/ sends = [EvSendMail (mailOptions example_env fixed_locale john_smith
                                  (now flaky_world)) None;
                    EvSendMail (confirmationEmail example_env john_smith)
                      (Some connection_refused)]).
Proof.
  apply (submit_form_transport_failure example_env fixed_locale john_smith
           flaky_world connection_refused); [prove_valid|].
  right. split; reflexivity.
Defined.

(** C5. A valid submission whose notification the transport rejects: the
    notification is the only transport call of the run, the confirmation
    is never handed to the transport, and the request ends as a 500. *)
Theorem submit_form_first_failure_stops env tl b w e :
  valid_submission b ->
  transport w (trace w) (mailOptions env tl b (now w)) = Some e ->
  exists r w',
    submit_form env tl b w = (Normal r, w')
    /\ status r = 500
    /\ transport_calls (new_events w w') = [mailOptions env tl b (now w)]
    /\ ~ In (confirmationEmail env b) (transport_calls (new_events w w')).
Proof.
  intros Hv H1.
  destruct (valid_submission_truthy b Hv) as (Hn & He & Hw & Hp).
  rewrite (submit_form_accepted env tl b w Hn He Hw Hp). cbv zeta.
  rewrite H1. eexists _, _. split; [reflexivity|].
  rewrite new_events_with_trace. cbn [transport_calls].
  repeat split.
  intros [H|[]]. exact (notification_is_not_confirmation env tl b (now w) H).
Qed.

Lemma submit_form_first_failure_stops_offline :
  exists r w',
    submit_form example_env fixed_locale john_smith offline_world = (Normal r, w')
    /\ status r = 500
    /\ transport_calls (new_events offline_world w')
       = [mailOptions example_env fixed_locale john_smith (now offline_world)]
    /\ ~ In (confirmationEmail example_env john_smith)
            (transport_calls (new_events offline_world w')).
Proof.
  apply (submit_form_first_failure_stops example_env fixed_locale john_smith
           offline_world connection_refused); [prove_valid | reflexivity].
Defined.

(** Whatever the required fields hold, an email off the pattern ends the
    request with a 400 and an untouched world. *)
Lemma submit_form_rejects_unmatched env tl b w :
  test emailRegex (ToString (email b)) = false ->
  exists r msg,
    submit_form env tl b w = (Normal r, w)
    /\ status r = 400
    /\ body r = [("success", JBool false); ("error", JStr msg)]%string.
Proof.
  intros Ht.
  destruct (truthy (name b) && truthy (email b) && truthy (website b)) eqn:Hreq.
  - apply andb_prop in Hreq. destruct Hreq as [Hreq Hw].
    apply andb_prop in Hreq. destruct Hreq as [Hn He].
    exists invalid_email_response, (js "Invalid email address").
    rewrite (submit_form_bad_address env tl b w Hn He Hw Ht).
    repeat split.
  - exists missing_fields_response, (js "Missing required fields").
    rewrite (submit_form_falsy_required env tl b w Hreq).
    repeat split.
Qed.

(** The handler never lets an exception escape: every run ends with a
    response. *)
Lemma submit_form_responds env tl b w :
  exists r w', submit_form env tl b w = (Normal r, w').
Proof.
  destruct (truthy (name b) && truthy (email b) && truthy (website b)) eqn:Hreq.
  - apply andb_prop in Hreq. destruct Hreq as [Hreq Hw].
    apply andb_prop in Hreq. destruct Hreq as [Hn He].
    destruct (test emailRegex (ToString (email b))) eqn:Hp.
    + rewrite (submit_form_accepted env tl b w Hn He Hw Hp). cbv zeta.
      destruct (transport w (trace w) _) as [e1|];
        [|destruct (transport w (trace w ++ _) _) as [e1|]];
        eexists _, _; reflexivity.
    + rewrite (submit_form_bad_address env tl b w Hn He Hw Hp).
      eexists _, _; reflexivity.
  - rewrite (submit_form_falsy_required env tl b w Hreq).
    eexists _, _; reflexivity.
Qed.

(** ** The claim about the health check *)

(** C6. [GET /health] answers 200 with the body [{status: 'ok',
    timestamp: t}], where [t] is the ISO 8601 rendering of the current
    time; it leaves the world as it was (no transport call, no other
    effect), and its answer is the same whatever the transport would do
    and whatever has happened before. *)
Theorem health_always_ok w :
  valid_time_value (now w) ->
  health w
  = (Normal {| status := 200;
               body := [("status", JStr (js "ok"));
                        ("timestamp", JStr (Date.toISOString (now w)))]%string |},
     w)
  /\ Iso8601.well_formed (Date.toISOString (now w)) = true
  /\ transport_calls (new_events w w) = []
  /\ (forall tr evs,
        fst (health {| now := now w; transport := tr; trace := evs |})
        = fst (health w)).
Proof.
  intros Ht. split; [reflexivity|].
  split; [apply toISOString_well_formed; exact Ht|].
  split; [rewrite new_events_same; reflexivity|].
  intros tr evs. reflexivity.
Qed.

Lemma health_always_ok_offline :
  health offline_world
  = (Normal {| status := 200;
               body := [("status", JStr (js "ok"));
                        ("timestamp", JStr (js "2023-11-14T22:13:20.000Z"))]%string |},
     offline_world)
  /\ Iso8601.well_formed (Date.toISOString (now offline_world)) = true
  /\ transport_calls (new_events offline_world offline_world) = []
  /\ (forall tr evs,
        fst (health {| now := now offline_world; transport := tr; trace := evs |})
        = fst (health offline_world)).
Proof.
  apply (health_always_ok offline_world).
  unfold valid_time_value. cbn [now offline_world]. lia.
Defined.

(** ** The claims about the address pattern *)

Lemma unique_split (a : char16) l r : forall l' r',
  ~ In a l -> ~ In a r ->
  l ++ a :: r = l' ++ a :: r' -> l = l' /\ r = r'.
Proof.
  induction l as [|x l IH]; intros l' r' Hl Hr E.
  - destruct l' as [|y l'].
    + inversion E. split; reflexivity.
    + inversion E; subst. exfalso. apply Hr.
      apply in_or_app. right. left. reflexivity.
  - destruct l' as [|y l'].
    + inversion E; subst. exfalso. apply Hl. left. reflexivity.
    + inversion E; subst.
      destruct (IH l' r') as [-> ->]; try assumption.
      * intros H. apply Hl. right. exact H.
      * split; reflexivity.
Qed.

Lemma address_chars_no_at l : Forall address_char l -> ~ In c_at l.
Proof.
  intros H Hin. rewrite Forall_forall in H.
  destruct (H _ Hin) as [_ Hne]. apply Hne. reflexivity.
Qed.

Lemma address_chars_no_space l c :
  Forall address_char l -> In c l -> is_space c = false.
Proof.
  intros H Hin. rewrite Forall_forall in H. apply (H _ Hin).
Qed.

Lemma address_shape_dot_after_at s : address_shape s -> ~ no_dot_after_at s.
Proof.
  intros (l & d & t & Hs & _ & _ & _ & Hal & Had & Hat) (l' & r' & Hs' & Hdot).
  rewrite Hs in Hs'.
  apply unique_split in Hs'.
  - destruct Hs' as [_ <-]. apply Hdot.
    apply in_or_app. right. left. reflexivity.
  - apply address_chars_no_at. exact Hal.
  - intros Hin. apply in_app_or in Hin. destruct Hin as [Hin|[Hin|Hin]].
    + exact (address_chars_no_at _ Had Hin).
    + discriminate Hin.
    + exact (address_chars_no_at _ Hat Hin).
Qed.

Lemma count_at_address_chars l :
  Forall address_char l -> count_occ N.eq_dec l c_at = 0%nat.
Proof.
  intros H. apply count_occ_not_In. apply address_chars_no_at. exact H.
Qed.

Lemma address_shape_single_at s : address_shape s -> ~ several_ats s.
Proof.
  intros (l & d & t & Hs & _ & _ & _ & Hal & Had & Hat) Hc.
  unfold several_ats in Hc. subst s.
  rewrite count_occ_app, count_occ_cons_eq in Hc by reflexivity.
  rewrite count_occ_app, count_occ_cons_neq in Hc by discriminate.
  rewrite !count_at_address_chars in Hc by assumption.
  lia.
Qed.

Lemma address_shape_no_whitespace s : address_shape s -> ~ has_whitespace s.
Proof.
  intros (l & d & t & Hs & _ & _ & _ & Hal & Had & Hat) (c & Hin & Hsp).
  subst s. apply in_app_or in Hin. destruct Hin as [Hin|[Hin|Hin]].
  - rewrite (address_chars_no_space _ _ Hal Hin) in Hsp. discriminate.
  - subst c. discriminate Hsp.
  - apply in_app_or in Hin. destruct Hin as [Hin|[Hin|Hin]].
    + rewrite (address_chars_no_space _ _ Had Hin) in Hsp. discriminate.
    + subst c. discriminate Hsp.
    + rewrite (address_chars_no_space _ _ Hat Hin) in Hsp. discriminate.
Qed.

(** C9. The address pattern accepts a string exactly when it is one or
    more characters that are neither whitespace nor [@], then [@], then
    one or more such characters, then a dot, then one or more such
    characters up to the end.  Hence an email with no dot after an [@],
    with more than one [@], or with any whitespace in it is answered 400,
    without any effect on the world. *)
Theorem emailRegex_exact :
  (forall s, test emailRegex s = true <-> address_shape s)
  /\ (forall env tl b w e,
        email b = JStr e ->
        no_dot_after_at e \/ several_ats e \/ has_whitespace e ->
        exists r msg,
          submit_form env tl b w = (Normal r, w)
          /\ status r = 400
          /\ body r = [("success", JBool false); ("error", JStr msg)]%string)
  /\ no_dot_after_at (js "a@b")
  /\ test emailRegex (js "a@b") = false.
Proof.
  split; [exact emailRegex_shape|].
  split.
  - intros env tl b w e He Hbad.
    apply submit_form_rejects_unmatched. rewrite He. cbn [ToString].
    destruct (test emailRegex e) eqn:Ht; [|reflexivity].
    apply emailRegex_shape in Ht. exfalso.
    destruct Hbad as [H|[H|H]].
    + exact (address_shape_dot_after_at _ Ht H).
    + exact (address_shape_single_at _ Ht H).
    + exact (address_shape_no_whitespace _ Ht H).
  - split; [|reflexivity].
    exists (js "a"), (js "b"). split; [reflexivity|].
    intros [H|[]]. discriminate H.
Qed.

Lemma emailRegex_exact_a_at_b :
  exists r msg,
    submit_form example_env fixed_locale
      (with_email john_smith (JStr (js "a@b"))) quiet_world
    = (Normal r, quiet_world)
    /\ status r = 400
    /\ body r = [("success", JBool false); ("error", JStr msg)]%string.
Proof.
  apply (proj1 (proj2 emailRegex_exact) example_env fixed_locale
           (with_email john_smith (JStr (js "a@b"))) quiet_world (js "a@b")).
  - reflexivity.
  - left. exact (proj1 (proj2 (proj2 emailRegex_exact))).
Defined.

(** ** The claim about the two messages *)

Lemma contains_refl s : contains s s.
Proof. exists [], []. rewrite app_nil_r. reflexivity. Qed.

Lemma contains_right p n h : contains n h -> contains n (p ++ h).
Proof.
  intros (pre & post & ->). exists (p ++ pre), post.
  rewrite <- app_assoc. reflexivity.
Qed.

Lemma contains_left q n h : contains n h -> contains n (h ++ q).
Proof.
  intros (pre & post & ->). exists pre, (post ++ q).
  rewrite <- !app_assoc. reflexivity.
Qed.

(** What the handler hands to the transport for a valid submission: the
    notification, and after it at most the confirmation. *)
Lemma submit_form_valid_calls env tl b w :
  valid_submission b ->
  exists r rest,
    new_events w (snd (submit_form env tl b w))
    = EvSendMail (mailOptions env tl b (now w)) r :: rest
    /\ (forall m, In m (transport_calls rest) -> m = confirmationEmail env b).
Proof.
  intros Hv.
  destruct (valid_submission_truthy b Hv) as (Hn & He & Hw & Hp).
  rewrite (submit_form_accepted env tl b w Hn He Hw Hp). cbv zeta.
  destruct (transport w (trace w) _) as [e|].
  - cbn [snd]. rewrite new_events_with_trace. eexists _, _.
    split; [reflexivity|]. intros m [].
  - destruct (transport w (trace w ++ _) _) as [e|];
      cbn [snd]; rewrite new_events_with_trace; eexists _, _;
      (split; [reflexivity|]); cbn [transport_calls];
      intros m [H|[]]; symmetry; exact H.
Qed.

(** C7, refuted as stated.  With [RECIPIENT_EMAIL] set to the empty
    string the notification of the sample submission goes to
    ['hello@markgrow.com'], not to the value of the entry. *)
Lemma notification_recipient_blank_entry :
  valid_submission john_smith
  /\ RECIPIENT_EMAIL blank_recipient_env = Some []
  /\ exists m rest,
       new_events quiet_world
         (snd (submit_form blank_recipient_env fixed_locale john_smith
                 quiet_world))
       = EvSendMail m None :: rest
       /\ to m = JStr (js "hello@markgrow.com")
       /\ to m <> recipient_when_unset_only blank_recipient_env.
Proof.
  split; [prove_valid|]. split; [reflexivity|].
  eexists _, _. split; [reflexivity|]. split; [reflexivity|].
  discriminate.
Qed.

(** C7, amended.  For a valid submission the handler hands the
    notification to the transport first and after it nothing but the
    confirmation.  The notification goes to [RECIPIENT_EMAIL] when that
    entry is set and not empty, and to ['hello@markgrow.com'] when it is
    unset or empty; the confirmation goes to the submitted email.  The
    notification body contains name, email and website.  The body is,
    line by line: the heading, name, email, website, the phone line, the
    service line, the message line, a rule and the submission time; the
    phone line and the message line are empty (nothing but the line
    break and the indentation is rendered for them) when the field is
    missing or empty, and hold the field when it is a non-empty string;
    the service line reads 'Not specified' when the service is missing
    or empty. *)
Theorem notification_and_confirmation_contents env tl b w :
  valid_submission b ->
  (exists r rest,
     new_events w (snd (submit_form env tl b w))
     = EvSendMail (mailOptions env tl b (now w)) r :: rest
     /\ (forall m, In m (transport_calls rest) -> m = confirmationEmail env b))
  /\ to (mailOptions env tl b (now w))
     = match RECIPIENT_EMAIL env with
       | Some (c :: s) => JStr (c :: s)
       | Some [] | None => JStr (js "hello@markgrow.com")
       end
  /\ to (confirmationEmail env b) = email b
  /\ contains (ToString (name b)) (html (mailOptions env tl b (now w)))
  /\ contains (ToString (email b)) (html (mailOptions env tl b (now w)))
  /\ contains (ToString (website b)) (html (mailOptions env tl b (now w)))
  /\ html (mailOptions env tl b (now w))
     = line (js "<h2>New Contact Form Submission</h2>")
       ++ line (js "<p><strong>Name:</strong> " ++ ToString (name b)
                ++ js "</p>")
       ++ line (js "<p><strong>Email:</strong> " ++ ToString (email b)
                ++ js "</p>")
       ++ line (js "<p><strong>Website:</strong> " ++ ToString (website b)
                ++ js "</p>")
       ++ line (phone_line (phone b))
       ++ line (js "<p><strong>Service:</strong> "
                ++ ToString (js_or (service b) (JStr (js "Not specified")))
                ++ js "</p>")
       ++ line (message_line (message b))
       ++ line (js "<hr>")
       ++ line (js "<p><small>Submitted: " ++ tl (now w)
                ++ js "</small></p>")
       ++ nl ++ indent12
  /\ (missing_or_empty (phone b) -> phone_line (phone b) = [])
  /\ (forall s, phone b = JStr s -> s <> [] ->
        phone_line (phone b)
        = js "<p><strong>Phone:</strong> " ++ s ++ js "</p>")
  /\ (missing_or_empty (message b) -> message_line (message b) = [])
  /\ (forall s, message b = JStr s -> s <> [] ->
        message_line (message b)
        = js "<p><strong>Message:</strong><br>" ++ s ++ js "</p>")
  /\ (missing_or_empty (service b) ->
        contains (js "<p><strong>Service:</strong> Not specified</p>")
          (html (mailOptions env tl b (now w)))).
Proof.
  intros Hv.
  split; [apply submit_form_valid_calls; exact Hv|].
  split.
  { unfold mailOptions, to, js_or, env_value.
    destruct (RECIPIENT_EMAIL env) as [[|c s]|]; reflexivity. }
  split; [reflexivity|].
  unfold mailOptions, html.
  split.
  { apply contains_right, contains_left. unfold line.
    do 3 apply contains_right. apply contains_left, contains_refl. }
  split.
  { do 2 apply contains_right. apply contains_left. unfold line.
    do 3 apply contains_right. apply contains_left, contains_refl. }
  split.
  { do 3 apply contains_right. apply contains_left. unfold line.
    do 3 apply contains_right. apply contains_left, contains_refl. }
  split.
  { reflexivity. }
  split.
  { intros H. unfold phone_line.
    rewrite (missing_or_empty_falsy _ H). reflexivity. }
  split.
  { intros s -> Hs. unfold phone_line. destruct s; [congruence|reflexivity]. }
  split.
  { intros H. unfold message_line.
    rewrite (missing_or_empty_falsy _ H). reflexivity. }
  split.
  { intros s -> Hs. unfold message_line. destruct s; [congruence|reflexivity]. }
  intros H. do 5 apply contains_right. apply contains_left. unfold line.
  do 2 apply contains_right. unfold js_or.
  rewrite (missing_or_empty_falsy _ H). cbn [ToString].
  exists [], []. rewrite app_nil_r. reflexivity.
Qed.

Lemma notification_and_confirmation_contents_john :
  to (mailOptions example_env fixed_locale john_smith (now quiet_world))
  = JStr (js "hello@markgrow.com")
  /\ to (confirmationEmail example_env john_smith)
     = JStr (js "john@company.com")
  /\ contains (js "John Smith")
       (html (mailOptions example_env fixed_locale john_smith (now quiet_world)))
  /\ phone_line (phone john_smith) = []
  /\ message_line (message john_smith) = [].
Proof.
  pose proof (notification_and_confirmation_contents example_env fixed_locale
                john_smith quiet_world ltac:(prove_valid))
    as (_ & Hto & Hconf & Hname & _ & _ & _ & Hphone & _ & Hmessage & _).
  split; [exact Hto|]. split; [exact Hconf|]. split; [exact Hname|].
  split; [apply Hphone | apply Hmessage]; left; reflexivity.
Defined.

(** ** The claims about state and about the required-field check *)

(** The answer of a run is fixed by what the transport answered. *)
Lemma submit_form_response_by_results env tl b w1 w2 :
  transport_results (new_events w1 (snd (submit_form env tl b w1)))
  = transport_results (new_events w2 (snd (submit_form env tl b w2))) ->
  fst (submit_form env tl b w1) = fst (submit_form env tl b w2).
Proof.
  destruct (truthy (name b) && truthy (email b) && truthy (website b)) eqn:Hreq.
  - apply andb_prop in Hreq. destruct Hreq as [Hreq Hw].
    apply andb_prop in Hreq. destruct Hreq as [Hn He].
    destruct (test emailRegex (ToString (email b))) eqn:Hp.
    + rewrite (submit_form_accepted env tl b w1 Hn He Hw Hp).
      rewrite (submit_form_accepted env tl b w2 Hn He Hw Hp). cbv zeta.
      destruct (transport w1 (trace w1) _) as [e1|];
        [|destruct (transport w1 (trace w1 ++ _) _) as [e1|]];
        (destruct (transport w2 (trace w2) _) as [e2|];
         [|destruct (transport w2 (trace w2 ++ _) _) as [e2|]]);
        cbn [fst snd]; rewrite !new_events_with_trace;
        cbn [transport_results]; intros H;
        try reflexivity; discriminate H.
    + rewrite (submit_form_bad_address env tl b w1 Hn He Hw Hp).
      rewrite (submit_form_bad_address env tl b w2 Hn He Hw Hp).
      reflexivity.
  - rewrite (submit_form_falsy_required env tl b w1 Hreq).
    rewrite (submit_form_falsy_required env tl b w2 Hreq).
    reflexivity.
Qed.

(** A run only appends to the trace; clock and transport stay as they are. *)
Lemma submit_form_appends env tl b w :
  exists evs, snd (submit_form env tl b w) = with_trace w (trace w ++ evs).
Proof.
  destruct (truthy (name b) && truthy (email b) && truthy (website b)) eqn:Hreq.
  - apply andb_prop in Hreq. destruct Hreq as [Hreq Hw].
    apply andb_prop in Hreq. destruct Hreq as [Hn He].
    destruct (test emailRegex (ToString (email b))) eqn:Hp.
    + rewrite (submit_form_accepted env tl b w Hn He Hw Hp). cbv zeta.
      destruct (transport w (trace w) _) as [e1|];
        [|destruct (transport w (trace w ++ _) _) as [e1|]];
        eexists; reflexivity.
    + rewrite (submit_form_bad_address env tl b w Hn He Hw Hp).
      exists []. rewrite app_nil_r. destruct w; reflexivity.
  - rewrite (submit_form_falsy_required env tl b w Hreq).
    exists []. rewrite app_nil_r. destruct w; reflexivity.
Qed.

(** C8. The form handler keeps no state.  Two runs on the same body under
    the same configuration, started in any two worlds (whatever happened
    before, whatever the clocks show), give the same answer as soon as the
    transport answered the same in both.  A run only appends its events to
    the trace and leaves clock and transport as they were.  Nothing is
    remembered about earlier submissions: the same valid payload handled
    twice, with a transport that accepts everything, is answered 200 both
    times and makes four transport calls, a notification and a
    confirmation for each run. *)
Theorem submit_form_stateless env tl b :
  (forall w1 w2,
     transport_results (new_events w1 (snd (submit_form env tl b w1)))
     = transport_results (new_events w2 (snd (submit_form env tl b w2))) ->
     fst (submit_form env tl b w1) = fst (submit_form env tl b w2))
  /\ (forall w, exists evs,
        snd (submit_form env tl b w) = with_trace w (trace w ++ evs))
  /\ (forall w later,
        valid_submission b -> transport_available w ->
        exists w1 w2,
          submit_form env tl b w = (Normal success_response, w1)
          /\ submit_form env tl b (with_now w1 later)
             = (Normal success_response, w2)
          /\ transport_calls (new_events w w2)
             = [mailOptions env tl b (now w); confirmationEmail env b;
                mailOptions env tl b later; confirmationEmail env b]).
Proof.
  split; [intros w1 w2; apply submit_form_response_by_results|].
  split; [intros w; apply submit_form_appends|].
  intros w later Hv Hup.
  destruct (valid_submission_truthy b Hv) as (Hn & He & Hw & Hp).
  rewrite (submit_form_accepted env tl b w Hn He Hw Hp). cbv zeta.
  rewrite !Hup. eexists _, _. split; [reflexivity|].
  rewrite (submit_form_accepted env tl b _ Hn He Hw Hp). cbv zeta.
  cbn [with_now with_trace transport trace now].
  rewrite !Hup. split; [reflexivity|].
  unfold new_events. cbn [trace with_trace].
  rewrite <- app_assoc, skipn_app, skipn_all, Nat.sub_diag.
  reflexivity.
Qed.

Lemma submit_form_stateless_john_twice :
  exists w1 w2,
    submit_form example_env fixed_locale john_smith quiet_world
    = (Normal success_response, w1)
    /\ submit_form example_env fixed_locale john_smith
         (with_now w1 1700000060000%Z)
       = (Normal success_response, w2)
    /\ transport_calls (new_events quiet_world w2)
       = [mailOptions example_env fixed_locale john_smith (now quiet_world);
          confirmationEmail example_env john_smith;
          mailOptions example_env fixed_locale john_smith 1700000060000%Z;
          confirmationEmail example_env john_smith].
Proof.
  apply (proj2 (proj2 (submit_form_stateless example_env fixed_locale
                         john_smith)) quiet_world 1700000060000%Z).
  - prove_valid.
  - intros history m. reflexivity.
Defined.

Lemma blank_truthy ws : blank ws -> truthy (JStr ws) = true.
Proof. intros [Hne _]. destruct ws; [congruence|reflexivity]. Qed.

Lemma blank_off_pattern ws : blank ws -> test emailRegex ws = false.
Proof.
  intros [Hne Hall]. destruct (test emailRegex ws) eqn:Ht; [|reflexivity].
  apply emailRegex_shape in Ht. exfalso.
  apply (address_shape_no_whitespace _ Ht).
  destruct ws as [|c ws]; [congruence|].
  exists c. split; [left; reflexivity|].
  inversion Hall; assumption.
Qed.

(** Past validation the first thing that happens is the notification, and
    the answer is not a 400. *)
Lemma submit_form_accepted_proceeds env tl b w :
  truthy (name b) = true -> truthy (email b) = true ->
  truthy (website b) = true ->
  test emailRegex (ToString (email b)) = true ->
  exists r w' o rest,
    submit_form env tl b w = (Normal r, w')
    /\ status r <> 400
    /\ new_events w w' = EvSendMail (mailOptions env tl b (now w)) o :: rest.
Proof.
  intros Hn He Hw Hp.
  rewrite (submit_form_accepted env tl b w Hn He Hw Hp). cbv zeta.
  destruct (transport w (trace w) _) as [e1|];
    [|destruct (transport w (trace w ++ _) _) as [e1|]];
    eexists _, _, _, _; (split; [reflexivity|]);
    rewrite new_events_with_trace;
    (split; [cbn; discriminate | reflexivity]).
Qed.

(** C10. The required-field check is truthiness and comes first.  A
    string of whitespace only is truthy, so a required field that holds
    one passes the check: with such a name or website (the other required
    fields non-empty, the email on the pattern) the handler goes on to
    the notification and does not answer 400, and such an email is not
    reported missing (it then fails the pattern).  A submission with a
    missing or empty required field whose email is also off the pattern
    is answered 'Missing required fields', not 'Invalid email address'. *)
Theorem required_check_is_truthiness env tl b w ws :
  blank ws ->
  truthy (JStr ws) = true
  /\ (name b = JStr ws \/ filled (name b) ->
      website b = JStr ws \/ filled (website b) ->
      filled (email b) -> matches_address_pattern (email b) ->
      exists r w' o rest,
        submit_form env tl b w = (Normal r, w')
        /\ status r <> 400
        /\ new_events w w'
           = EvSendMail (mailOptions env tl b (now w)) o :: rest)
  /\ (email b = JStr ws -> filled (name b) -> filled (website b) ->
      submit_form env tl b w = (Normal invalid_email_response, w))
  /\ (missing_or_empty (name b) \/ missing_or_empty (email b)
      \/ missing_or_empty (website b) ->
      ~ matches_address_pattern (email b) ->
      exists r,
        submit_form env tl b w = (Normal r, w)
        /\ status r = 400
        /\ body r = [("success", JBool false);
                     ("error", JStr (js "Missing required fields"))]%string
        /\ body r <> [("success", JBool false);
                      ("error", JStr (js "Invalid email address"))]%string).
Proof.
  intros Hws. split; [apply blank_truthy; exact Hws|].
  split.
  { intros Hn Hw He Hp. apply submit_form_accepted_proceeds.
    - destruct Hn as [->|Hn]; [apply blank_truthy | apply filled_truthy];
        assumption.
    - apply filled_truthy; assumption.
    - destruct Hw as [->|Hw]; [apply blank_truthy | apply filled_truthy];
        assumption.
    - exact Hp. }
  split.
  { intros He Hn Hw. apply submit_form_bad_address.
    - apply filled_truthy; assumption.
    - rewrite He. apply blank_truthy; exact Hws.
    - apply filled_truthy; assumption.
    - rewrite He. cbn [ToString]. apply blank_off_pattern; exact Hws. }
  intros Hmiss _.
  destruct (submit_form_missing_required_general env tl b w Hmiss) as [-> _].
  exists missing_fields_response. repeat split. discriminate.
Qed.

Lemma required_check_is_truthiness_blank_name :
  exists r w' o rest,
    submit_form example_env fixed_locale
      (with_name john_smith (JStr (js "   "))) quiet_world = (Normal r, w')
    /\ status r <> 400
    /\ new_events quiet_world w'
       = EvSendMail (mailOptions example_env fixed_locale
                       (with_name john_smith (JStr (js "   ")))
                       (now quiet_world)) o :: rest.
Proof.
  assert (Hws : blank (js "   ")).
  { split; [discriminate|]. repeat constructor. }
  apply (proj1 (proj2 (required_check_is_truthiness example_env fixed_locale
                         (with_name john_smith (JStr (js "   ")))
                         quiet_world (js "   ") Hws))).
  - left. reflexivity.
  - right. prove_filled.
  - prove_filled.
  - vm_compute. reflexivity.
Defined.


Example parse_epoch :
  DateTimeString.parse (js "1970-01-01T00:00:00.000Z") = Some 0%Z.
Proof. vm_compute. reflexivity. Qed.

Example parse_sample :
  DateTimeString.parse (js "2023-11-14T22:13:20.000Z") = Some 1700000000000%Z.
Proof. vm_compute. reflexivity. Qed.

Example parse_expanded_year :
  DateTimeString.parse (js "-271821-04-20T00:00:00.000Z")
  = Some (-8640000000000000)%Z.
Proof. vm_compute. reflexivity. Qed.

Example parse_rejects_date_only :
  DateTimeString.parse (js "2023-11-14") = None.
Proof. vm_compute. reflexivity. Qed.

(** ** Runs of the form handler, looked at from outside *)

(** Only a string can match the pattern: [undefined], [null] and the
    booleans render as words without an [@]. *)
Lemma pattern_needs_string v :
  test emailRegex (ToString v) = true ->
  exists e, v = JStr e /\ address_shape e.
Proof.
  destruct v as [| |[|]|s]; cbn [ToString]; intros H;
    try (vm_compute in H; discriminate H).
  exists s. split; [reflexivity|]. apply emailRegex_shape. exact H.
Qed.

(** The four ways a run can go. *)
Lemma submit_form_cases env tl b w :
  (passes_validation b = false
   /\ exists r, submit_form env tl b w = (Normal r, w) /\ status r = 400)
  \/ (passes_validation b = true
      /\ submit_form env tl b w
         = (Normal success_response,
            with_trace w
              (trace w ++ [EvSendMail (mailOptions env tl b (now w)) None;
                           EvSendMail (confirmationEmail env b) None])))
  \/ (passes_validation b = true
      /\ exists e,
           submit_form env tl b w
           = (Normal server_error_response,
              with_trace w
                (trace w ++ [EvSendMail (mailOptions env tl b (now w)) (Some e);
                             EvConsoleError console_label e])))
  \/ (passes_validation b = true
      /\ exists e,
           submit_form env tl b w
           = (Normal server_error_response,
              with_trace w
                (trace w ++ [EvSendMail (mailOptions env tl b (now w)) None;
                             EvSendMail (confirmationEmail env b) (Some e);
                             EvConsoleError console_label e]))).
Proof.
  unfold passes_validation.
  destruct (truthy (name b) && truthy (email b) && truthy (website b)) eqn:Hreq.
  - apply andb_prop in Hreq. destruct Hreq as [Hreq Hw].
    apply andb_prop in Hreq. destruct Hreq as [Hn He].
    destruct (test emailRegex (ToString (email b))) eqn:Hp; cbn [andb].
    + right.
      rewrite (submit_form_accepted env tl b w Hn He Hw Hp). cbv zeta.
      destruct (transport w (trace w) _) as [e|].
      * right. left. split; [reflexivity|]. exists e. reflexivity.
      * destruct (transport w (trace w ++ _) _) as [e|].
        -- right. right. split; [reflexivity|]. exists e. reflexivity.
        -- left. split; reflexivity.
    + left. split; [reflexivity|]. exists invalid_email_response.
      rewrite (submit_form_bad_address env tl b w Hn He Hw Hp).
      split; reflexivity.
  - left. cbn [andb]. split; [reflexivity|]. exists missing_fields_response.
    rewrite (submit_form_falsy_required env tl b w Hreq).
    split; reflexivity.
Qed.


(** X2. A 200 is earned: when a run answers 200, the body passed both
    checks and the run consisted of exactly two transport calls, the
    notification and then the confirmation, both accepted; nothing was
    written to the console. *)
Theorem submit_form_200_means_both_accepted env tl b w r w' :
  submit_form env tl b w = (Normal r, w') ->
  status r = 200 ->
  passes_validation b = true
  /\ new_events w w'
     = [EvSendMail (mailOptions env tl b (now w)) None;
        EvSendMail (confirmationEmail env b) None]
  /\ console_errors (new_events w w') = [].
Proof.
  intros E Hs.
  destruct (submit_form_cases env tl b w)
    as [(Hp & r0 & E0 & Hs0)|[(Hp & E0)|[(Hp & e & E0)|(Hp & e & E0)]]];
    rewrite E0 in E; inversion E; subst.
  - rewrite Hs0 in Hs. discriminate Hs.
  - rewrite new_events_with_trace. repeat split. exact Hp.
  - discriminate Hs.
  - discriminate Hs.
Qed.

Lemma submit_form_200_means_both_accepted_john :
  passes_validation john_smith = true
  /\ new_events quiet_world
       (with_trace quiet_world
          [EvSendMail (mailOptions example_env fixed_locale john_smith
                         (now quiet_world)) None;
           EvSendMail (confirmationEmail example_env john_smith) None])
     = [EvSendMail (mailOptions example_env fixed_locale john_smith
                      (now quiet_world)) None;
        EvSendMail (confirmationEmail example_env john_smith) None]
  /\ console_errors
       (new_events quiet_world
          (with_trace quiet_world
             [EvSendMail (mailOptions example_env fixed_locale john_smith
                            (now quiet_world)) None;
              EvSendMail (confirmationEmail example_env john_smith) None]))
     = [].
Proof.
  apply (submit_form_200_means_both_accepted example_env fixed_locale
           john_smith quiet_world success_response); reflexivity.
Defined.


(** X4. What reaches the transport is well addressed, whatever the body
    holds (strings or not).  Every message a run hands over is the
    notification or the confirmation of that body; the submitted email is
    then a string of the address shape; the notification carries it as
    [replyTo], the confirmation as [to]; and both are sent from
    [EMAIL_USER]. *)
Theorem submit_form_outgoing_mail env tl b w :
  exists r w',
    submit_form env tl b w = (Normal r, w')
    /\ forall m,
         In m (transport_calls (new_events w w')) ->
         exists e,
           email b = JStr e /\ address_shape e
           /\ from m = env_value (EMAIL_USER env)
           /\ ((m = mailOptions env tl b (now w) /\ replyTo m = JStr e)
               \/ (m = confirmationEmail env b /\ to m = JStr e)).
Proof.
  assert (Hshape : passes_validation b = true ->
                   exists e, email b = JStr e /\ address_shape e).
  { unfold passes_validation. intros H. apply andb_prop in H.
    apply pattern_needs_string. exact (proj2 H). }
  destruct (submit_form_cases env tl b w)
    as [(Hp & r & E & Hs)|[(Hp & E)|[(Hp & e & E)|(Hp & e & E)]]];
    rewrite E; eexists _, _; (split; [reflexivity|]);
    rewrite ?new_events_with_trace, ?new_events_same;
    cbn [transport_calls]; intros m Hin.
  - destruct Hin.
  - destruct (Hshape Hp) as (a & Ha & Hsh). exists a.
    destruct Hin as [<-|[<-|[]]]; repeat split; auto.
  - destruct (Hshape Hp) as (a & Ha & Hsh). exists a.
    destruct Hin as [<-|[]]; repeat split; auto.
  - destruct (Hshape Hp) as (a & Ha & Hsh). exists a.
    destruct Hin as [<-|[<-|[]]]; repeat split; auto.
Qed.

(** X5. Sending the form again after half a failure repeats the
    notification.  When the transport accepted the notification and
    rejected the confirmation, the run answered 500; if the same body is
    then submitted again and both messages are accepted, the answer is
    200 and the transport has by then accepted the notification twice
    and the confirmation once. *)
Theorem submit_form_retry_repeats_notification env tl b w e later :
  valid_submission b ->
  transport w (trace w) (mailOptions env tl b (now w)) = None ->
  transport w (trace w ++ [EvSendMail (mailOptions env tl b (now w)) None])
    (confirmationEmail env b) = Some e ->
  transport w
    (trace w ++ [EvSendMail (mailOptions env tl b (now w)) None;
                 EvSendMail (confirmationEmail env b) (Some e);
                 EvConsoleError (js "Form submission error:") e])
    (mailOptions env tl b later) = None ->
  transport w
    (trace w ++ [EvSendMail (mailOptions env tl b (now w)) None;
                 EvSendMail (confirmationEmail env b) (Some e);
                 EvConsoleError (js "Form submission error:") e;
                 EvSendMail (mailOptions env tl b later) None])
    (confirmationEmail env b) = None ->
  exists r1 w1 r2 w2,
    submit_form env tl b w = (Normal r1, w1)
    /\ submit_form env tl b (with_now w1 later) = (Normal r2, w2)
    /\ status r1 = 500 /\ status r2 = 200
    /\ new_events w w2
       = [EvSendMail (mailOptions env tl b (now w)) None;
          EvSendMail (confirmationEmail env b) (Some e);
          EvConsoleError (js "Form submission error:") e;
          EvSendMail (mailOptions env tl b later) None;
          EvSendMail (confirmationEmail env b) None].
Proof.
  intros Hv H1 H2 H3 H4.
  destruct (valid_submission_truthy b Hv) as (Hn & He & Hw & Hp).
  rewrite (submit_form_accepted env tl b w Hn He Hw Hp). cbv zeta.
  rewrite H1, H2. eexists _, _, _, _. split; [reflexivity|].
  rewrite (submit_form_accepted env tl b _ Hn He Hw Hp). cbv zeta.
  cbn [with_now with_trace transport trace now].
  change console_label with (js "Form submission error:").
  rewrite H3. rewrite <- app_assoc. cbn [app]. rewrite H4.
  split; [reflexivity|]. split; [reflexivity|]. split; [reflexivity|].
  unfold new_events. cbn [trace with_trace].
  rewrite <- app_assoc, skipn_app, skipn_all, Nat.sub_diag. reflexivity.
Qed.

Lemma submit_form_retry_repeats_notification_hiccup :
  exists r1 w1 r2 w2,
    submit_form example_env fixed_locale john_smith hiccup_world
    = (Normal r1, w1)
    /\ submit_form example_env fixed_locale john_smith
         (with_now w1 1700000060000%Z) = (Normal r2, w2)
    /\ status r1 = 500 /\ status r2 = 200
    /\ new_events hiccup_world w2
       = [EvSendMail (mailOptions example_env fixed_locale john_smith
                        (now hiccup_world)) None;
          EvSendMail (confirmationEmail example_env john_smith)
            (Some connection_refused);
          EvConsoleError (js "Form submission error:") connection_refused;
          EvSendMail (mailOptions example_env fixed_locale john_smith
                        1700000060000%Z) None;
          EvSendMail (confirmationEmail example_env john_smith) None].
Proof.
  apply (submit_form_retry_repeats_notification example_env fixed_locale
           john_smith hiccup_world connection_refused 1700000060000%Z);
    [prove_valid | reflexivity | reflexivity | reflexivity | reflexivity].
Defined.

(** X6. An address the pattern accepts holds exactly one [@] and is at
    least five code units long (as short as [a@b.c]). *)
Theorem emailRegex_accepts_one_at s :
  test emailRegex s = true ->
  count_occ N.eq_dec s c_at = 1 /\ 5 <= List.length s.
Proof.
  intros H. apply emailRegex_shape in H.
  destruct H as (l & d & t & -> & Hl & Hd & Ht & Hal & Had & Hat).
  split.
  - rewrite count_occ_app, count_occ_cons_eq by reflexivity.
    rewrite count_occ_app, count_occ_cons_neq by discriminate.
    rewrite !count_at_address_chars by assumption. reflexivity.
  - destruct l; [congruence|]. destruct d; [congruence|].
    destruct t; [congruence|].
    repeat (rewrite length_app || cbn [List.length]). lia.
Qed.

Lemma emailRegex_accepts_one_at_shortest :
  count_occ N.eq_dec (js "a@b.c") c_at = 1 /\ 5 <= List.length (js "a@b.c").
Proof.
  apply (emailRegex_accepts_one_at (js "a@b.c")). vm_compute. reflexivity.
Defined.

(** ** Request after request *)





(** ** Timestamps read back *)

Section TimestampFacts.

Import Date Iso8601 DateTimeString.
Local Open Scope Z_scope.

Lemma read_year_exact y r :
  -999999 <= y <= 999999 ->
  read_year (year_digits y ++ r) = Some (y, r).
Proof.
  intros Hy. unfold year_digits.
  destruct (Z.leb_spec 0 y) as [Hpos|Hneg]; cbn [andb].
  - destruct (Z.leb_spec y 9999) as [Hsmall|Hbig].
    + unfold read_year.
      destruct (digits_head 3 y r) as (c & rest & E & Hc). rewrite E.
      unfold is_digit in Hc. apply andb_prop in Hc. destruct Hc as [H1 H2].
      apply N.leb_le in H1, H2.
      destruct (N.eqb_spec c 43); [lia|].
      destruct (N.eqb_spec c 45); [lia|].
      rewrite <- E. apply read_digits_exact. cbn. lia.
    + change (js "+") with [43%N]. cbn [app read_year N.eqb Pos.eqb].
      rewrite Z.abs_eq by lia. apply read_digits_exact. cbn. lia.
  - change (js "-") with [45%N]. cbn [app read_year N.eqb Pos.eqb].
    rewrite read_digits_exact by (cbn; lia).
    destruct (Z.eqb_spec (Z.abs y) 0); [lia|]. f_equal. f_equal. lia.
Qed.

Lemma number_digits w sep x r :
  0 <= x < 10 ^ Z.of_nat w ->
  number w sep (digits w x ++ sep :: r) = Some (x, r).
Proof.
  intros Hx. unfold number. rewrite read_digits_exact by assumption.
  cbn [expect]. rewrite N.eqb_refl. reflexivity.
Qed.

(** The time of day put together again. *)
Lemma MakeTime_fields t :
  MakeTime (HourFromTime t) (MinFromTime t) (SecFromTime t) (msFromTime t)
  = t mod msPerDay.
Proof.
  unfold MakeTime, HourFromTime, MinFromTime, SecFromTime, msFromTime,
    msPerDay, msPerHour, msPerMinute, msPerSecond.
  Z.div_mod_to_equations. lia.
Qed.

(** The day put together again from year, month and date. *)
Lemma MakeDay_fields t :
  MakeDay (YearFromTime t) (MonthFromTime t) (DateFromTime t) = Day t.
Proof.
  unfold MakeDay, DateFromTime, MonthFromTime, DayWithinYear.
  fold (InLeapYear t).
  set (leap := InLeapYear t). set (first := DayFromYear (YearFromTime t)).
  repeat match goal with
         | |- context [if ?a <? ?b then _ else _] =>
             destruct (Z.ltb_spec a b)
         end; cbn [month_start]; lia.
Qed.

Lemma MakeDate_fields t : MakeDate (Day t) (t mod msPerDay) = t.
Proof.
  unfold MakeDate, Day, msPerDay.
  pose proof (Z.div_mod t 86400000). lia.
Qed.

Lemma parse_toISOString t :
  -8640000000000000 <= t <= 8640000000000000 ->
  parse (toISOString t) = Some t.
Proof.
  intros Ht. unfold toISOString, parse.
  pose proof (YearFromTime_range t Ht) as Hy.
  rewrite read_year_exact by lia.
  change (js "-") with [45%N]. change (js "T") with [84%N].
  change (js ":") with [58%N]. change (js ".") with [46%N].
  change (js "Z") with [90%N].
  cbn [app expect N.eqb Pos.eqb].
  pose proof (MonthFromTime_range t). pose proof (DateFromTime_range t).
  pose proof (HourFromTime_range t). pose proof (MinFromTime_range t).
  pose proof (SecFromTime_range t). pose proof (msFromTime_range t).
  rewrite number_digits by (cbn; lia).
  rewrite number_digits by (cbn; lia).
  rewrite number_digits by (cbn; lia).
  rewrite number_digits by (cbn; lia).
  rewrite number_digits by (cbn; lia).
  rewrite number_digits by (cbn; lia).
  rewrite Z.add_simpl_r, MakeDay_fields, MakeTime_fields, MakeDate_fields.
  reflexivity.
Qed.

(** Years 0 to 9999 are the instants from the start of year 0 to the
    last millisecond of year 9999. *)
Lemma YearFromTime_four_digits t :
  0 <= YearFromTime t <= 9999
  <-> -62167219200000 <= t <= 253402300799999.
Proof.
  pose proof (YearFromTime_spec t) as H.
  unfold DayFromYear, Day, msPerDay in H.
  split; intros Hr; Z.div_mod_to_equations; lia.
Qed.

Lemma length_digits w x : List.length (digits w x) = w.
Proof.
  revert x. induction w as [|w IH]; intros x; [reflexivity|].
  cbn [digits]. rewrite length_app, IH. cbn [List.length]. lia.
Qed.

Lemma length_toISOString t :
  List.length (toISOString t)
  = if (0 <=? YearFromTime t) && (YearFromTime t <=? 9999) then 24%nat else 27%nat.
Proof.
  unfold toISOString, year_digits.
  change (js "-") with [45%N]. change (js "T") with [84%N].
  change (js ":") with [58%N]. change (js ".") with [46%N].
  change (js "Z") with [90%N].
  destruct ((0 <=? YearFromTime t) && (YearFromTime t <=? 9999));
    [|destruct (0 <=? YearFromTime t);
      [change (js "+") with [43%N] | change (js "-") with [45%N]]];
    repeat (rewrite length_app || rewrite length_digits
            || cbn [List.length app]);
    reflexivity.
Qed.

End TimestampFacts.

(** X8. The timestamp of the health check pins the clock down to the
    millisecond.  Read back as a date-time string it gives the time value
    the handler saw, so two health checks answer alike exactly when they
    ran at the same instant. *)
Theorem health_timestamp_reads_back w1 w2 :
  valid_time_value (now w1) -> valid_time_value (now w2) ->
  (exists ts,
     fst (health w1)
     = Normal {| status := 200;
                 body := [("status", JStr (js "ok"));
                          ("timestamp", JStr ts)]%string |}
     /\ DateTimeString.parse ts = Some (now w1))
  /\ (fst (health w1) = fst (health w2) <-> now w1 = now w2).
Proof.
  intros H1 H2. split.
  - exists (Date.toISOString (now w1)). split; [reflexivity|].
    apply parse_toISOString. exact H1.
  - split.
    + intros E. unfold health, bind, new_Date, ret, res_json in E.
      cbn [fst] in E. injection E as Ets.
      apply (f_equal DateTimeString.parse) in Ets.
      rewrite !parse_toISOString in Ets by assumption.
      congruence.
    + intros E. unfold health, bind, new_Date, ret. cbn [fst].
      rewrite E. reflexivity.
Qed.

Lemma health_timestamp_reads_back_sample :
  (exists ts,
     fst (health quiet_world)
     = Normal {| status := 200;
                 body := [("status", JStr (js "ok"));
                          ("timestamp", JStr ts)]%string |}
     /\ DateTimeString.parse ts = Some (now quiet_world))
  /\ (fst (health quiet_world) = fst (health offline_world)
      <-> now quiet_world = now offline_world).
Proof.
  apply (health_timestamp_reads_back quiet_world offline_world);
    unfold valid_time_value; cbn [now quiet_world offline_world]; lia.
Defined.

(** X9. The timestamp of the health check is 24 code units long from the
    first millisecond of year 0 to the last of year 9999, and 27 (a sign
    and a six-digit year) at any other time a [Date] can hold. *)
Theorem health_timestamp_width w :
  exists ts,
    fst (health w)
    = Normal {| status := 200;
                body := [("status", JStr (js "ok"));
                         ("timestamp", JStr ts)]%string |}
    /\ List.length ts
       = if ((-62167219200000 <=? now w) && (now w <=? 253402300799999))%Z
         then 24 else 27.
Proof.
  exists (Date.toISOString (now w)). split; [reflexivity|].
  rewrite length_toISOString.
  pose proof (YearFromTime_four_digits (now w)) as [Hto Hfrom].
  destruct (Z.leb_spec 0 (Date.YearFromTime (now w)));
    destruct (Z.leb_spec (Date.YearFromTime (now w)) 9999);
    destruct (Z.leb_spec (-62167219200000) (now w));
    destruct (Z.leb_spec (now w) 253402300799999);
    cbn [andb]; try reflexivity; exfalso; lia.
Qed.
